(** * TNT Speed-to-Lead backend

    A shallow embedding of the lead scoring functions, the lead hooks,
    the follow-up sequence state machine, the form-submission webhook,
    the response-time alert processor, the queue configuration and the
    business-hours helpers, with the properties the specification states
    about them.

    Conventions.  A [Date] is a number of milliseconds (local time, no
    daylight-saving shift).  [new Date()] and [Date.now()] are an explicit
    argument [now].  An [await]ed call is an ordinary call: every handler
    is modelled as it runs alone, one statement after the other. *)

From Stdlib Require Import ZArith QArith List String Ascii Bool Lia.
From Stdlib Require Import Permutation Sorted DecimalString DecimalZ DecimalPos.
From Stdlib Require Import Qabs.
Import ListNotations.
Local Open Scope string_scope.
Local Open Scope list_scope.
Local Open Scope Z_scope.

(* ================================================================== *)
(** * JavaScript values and built-ins used by the models               *)
(* ================================================================== *)

Module Js.

(** The value of a numeric attribute: a freshly built instance leaves an
    attribute that was not passed [undefined]; a row read back from the
    table has [null].  A decimal is the number it denotes. *)
Inductive num : Type :=
| undefined
| null
| number (q : Q).

(** [ToNumber]; [None] is NaN. *)
Definition ToNumber (v : num) : option Q :=
  match v with
  | undefined => None
  | null => Some 0%Q
  | number q => Some q
  end.

(** [v >= c], [v > c], [v <= c] against a numeric literal: a comparison
    with NaN is false. *)
Definition ge (v : num) (c : Q) : bool :=
  match ToNumber v with Some q => Qle_bool c q | None => false end.

Definition gt (v : num) (c : Q) : bool :=
  match ToNumber v with Some q => negb (Qle_bool q c) | None => false end.

Definition le (v : num) (c : Q) : bool :=
  match ToNumber v with Some q => Qle_bool q c | None => false end.

(** [v || d] for a numeric attribute: [undefined], [null] and [0] are
    falsy. *)
Definition or_else (v : num) (d : Q) : Q :=
  match v with
  | number q => if Qeq_bool q 0 then d else q
  | _ => d
  end.

(** Equality of two attribute values, as [changed()] sees it. *)
Definition num_eqb (a b : num) : bool :=
  match a, b with
  | undefined, undefined => true
  | null, null => true
  | number p, number q => Qeq_bool p q
  | _, _ => false
  end.

(** Truthiness of a string attribute ([None] is null or undefined): the
    empty string is falsy. *)
Definition truthy (s : option string) : bool :=
  match s with
  | Some (String _ _) => true
  | _ => false
  end.

(** [s && s.length > 0]. *)
Definition non_empty (s : option string) : bool :=
  match s with
  | Some t => truthy s && (0 <? Z.of_nat (String.length t))
  | None => false
  end.

(** The property key a string attribute turns into. *)
Definition key (s : option string) : string :=
  match s with Some t => t | None => "null" end.

Definition code (c : ascii) : Z := Z.of_nat (nat_of_ascii c).

Definition is_digit (c : ascii) : bool := (48 <=? code c) && (code c <=? 57).

Definition is_space (c : ascii) : bool :=
  (code c =? 32) || ((9 <=? code c) && (code c <=? 13)).

Fixpoint skip_spaces (s : string) : string :=
  match s with
  | String c r => if is_space c then skip_spaces r else s
  | EmptyString => s
  end.

Fixpoint all_spaces (s : string) : bool :=
  match s with
  | String c r => is_space c && all_spaces r
  | EmptyString => true
  end.

(** The longest prefix of decimal digits: its value, its length and the
    rest of the string. *)
Fixpoint digits (acc : Z) (n : nat) (s : string) : Z * nat * string :=
  match s with
  | String c r =>
      if is_digit c then digits (10 * acc + (code c - 48)) (S n) r
      else (acc, n, s)
  | EmptyString => (acc, n, s)
  end.

Definition sign_of (s : string) : Z * string :=
  match s with
  | String "-"%char r => (-1, r)
  | String "+"%char r => (1, r)
  | _ => (1, s)
  end.

(** [parseInt(s)] in radix 10: leading white space, an optional sign, the
    longest run of digits; NaN ([None]) when there is no digit.  A
    hexadecimal prefix and white space outside ASCII are not
    modelled. *)
Definition parseInt (s : string) : option Q :=
  let '(sg, r) := sign_of (skip_spaces s) in
  let '(v, n, _) := digits 0 0 r in
  match n with
  | O => None
  | S _ => Some (inject_Z (sg * v))
  end.

(** [Number(s)] on a decimal literal: white space around it is dropped,
    the empty string is 0, then an optional sign, digits and an optional
    fraction; anything else is NaN.  Exponents, [Infinity] and the
    prefixed radix forms are not modelled. *)
Definition Number (s : string) : option Q :=
  let t := skip_spaces s in
  match t with
  | EmptyString => Some 0%Q
  | _ =>
      let '(sg, r) := sign_of t in
      let '(i, ni, r1) := digits 0 0 r in
      let '(f, nf, r2) :=
        match r1 with
        | String "."%char r' => digits 0 0 r'
        | _ => (0, O, r1)
        end in
      match (ni + nf)%nat with
      | O => None
      | S _ =>
          if all_spaces r2
          then Some (Qmake (sg * (i * 10 ^ Z.of_nat nf + f))
                           (Z.to_pos (10 ^ Z.of_nat nf)))
          else None
      end
  end.

(** [s.includes(c)] for a one-character needle. *)
Fixpoint includes (c : ascii) (s : string) : bool :=
  match s with
  | String d r => Ascii.eqb c d || includes c r
  | EmptyString => false
  end.

(** [s.replace(c, '')]: the first occurrence only. *)
Fixpoint remove_first (c : ascii) (s : string) : string :=
  match s with
  | String d r => if Ascii.eqb c d then r else String d (remove_first c r)
  | EmptyString => EmptyString
  end.

(** [s.split(c)]. *)
Fixpoint split (c : ascii) (s : string) : list string :=
  match s with
  | EmptyString => [EmptyString]
  | String d r =>
      if Ascii.eqb c d then EmptyString :: split c r
      else match split c r with
           | p :: ps => String d p :: ps
           | [] => [String d EmptyString]
           end
  end.

(** [obj[k] || 0] on an object whose values are numbers: the entries are
    listed as [Object.entries] yields them, every key once.  Own keys
    only: the members every object inherits are not looked up. *)
Fixpoint lookup (k : string) (m : list (string * Z)) : Z :=
  match m with
  | (k', v) :: r => if String.eqb k k' then v else lookup k r
  | [] => 0
  end.

(** [Math.min]. *)
Definition min (a b : Z) : Z := Z.min a b.

(** [getDay()] and [getHours()] of a date: day 0 of the epoch was a
    Thursday. *)
Definition ms_per_hour : Z := 3600000.
Definition ms_per_day : Z := 24 * ms_per_hour.

Definition getDay (d : Z) : Z := (d / ms_per_day + 4) mod 7.
Definition getHours (d : Z) : Z := (d / ms_per_hour) mod 24.

(** [String(n)] and [`${n}`] for an integer: its decimal digits, with a
    minus sign when it is negative. *)
Definition toString (n : Z) : string := NilZero.string_of_int (Z.to_int n).

(** [s.startsWith(p)]. *)
Fixpoint startsWith (p s : string) : bool :=
  match p, s with
  | EmptyString, _ => true
  | String a p', String b s' => Ascii.eqb a b && startsWith p' s'
  | String _ _, EmptyString => false
  end.

(** [s.replace(p, '')] for a string pattern: the first occurrence of [p]
    is taken out. *)
Fixpoint remove_first_string (p s : string) : string :=
  if startsWith p s then substring (String.length p) (String.length s) s
  else match s with
       | String c r => String c (remove_first_string p r)
       | EmptyString => EmptyString
       end.

End Js.

(* ================================================================== *)
(** * ORDER BY                                                         *)
(* ================================================================== *)

Module Sql.

(** The rows in the order a comparison asks for; rows that compare equal
    keep the order they have. *)
Fixpoint insert {A : Type} (leb : A -> A -> bool) (x : A) (l : list A)
    : list A :=
  match l with
  | [] => [x]
  | y :: r => if leb x y then x :: l else y :: insert leb x r
  end.

Definition order_by {A : Type} (leb : A -> A -> bool) (l : list A) : list A :=
  fold_right (insert leb) [] l.

End Sql.

(* ================================================================== *)
(** * The Lead model                                                   *)
(* ================================================================== *)

Module Lead.

Inductive Status : Type := new | contacted | qualified | converted | lost.

Definition Status_eqb (a b : Status) : bool :=
  match a, b with
  | new, new | contacted, contacted | qualified, qualified
  | converted, converted | lost, lost => true
  | _, _ => false
  end.

(** The attributes of a lead that the scoring functions, the hooks and
    the handlers read or write. *)
Record t : Type := mk {
  id : Z;
  company_name : option string;
  contact_name : string;
  email : option string;
  phone : option string;
  website : option string;
  service_type : string;
  service_date : option Z;
  pickup_location : option string;
  destination : option string;
  passenger_count : Js.num;
  estimated_value : Js.num;
  budget_tier : option string;
  company_size_estimate : Js.num;
  lead_score : Z;
  status : Status;
  priority_level : Z;
  distance_from_base : Js.num;
  converted_at : option Z;
  last_contact_at : option Z;
  created_at : Z
}.

(** [serviceTypeScores]. *)
Definition serviceTypeScores : list (string * Z) :=
  [("corporate", 25); ("airport", 20); ("events", 15); ("wedding", 15);
   ("hourly", 10)].

(** [Lead.prototype.calculateScore]. *)
Definition calculateScore (this : t) : Z :=
  let score := 0 in
  (* Base score factors *)
  let score :=
    if Js.non_empty (company_name this) then score + 10 else score in
  let score :=
    if Js.ge (estimated_value this) 1000 then score + 30
    else if Js.ge (estimated_value this) 500 then score + 20
    else if Js.gt (estimated_value this) 0 then score + 10
    else score in
  (* Service type scoring *)
  let score := score + Js.lookup (service_type this) serviceTypeScores in
  (* Geographic proximity *)
  let score :=
    if Js.le (distance_from_base this) 25 then score + 15
    else if Js.le (distance_from_base this) 50 then score + 10
    else if Js.le (distance_from_base this) 100 then score + 5
    else score in
  (* Passenger count *)
  let score :=
    if Js.ge (passenger_count this) 8 then score + 15
    else if Js.ge (passenger_count this) 4 then score + 10
    else score in
  (* Cap score at 100 *)
  Js.min score 100.

(** The threshold table of [updatePriority]. *)
Definition priority_of_score (score : Z) : Z :=
  if 80 <=? score then 5
  else if 60 <=? score then 4
  else if 40 <=? score then 3
  else if 20 <=? score then 2
  else 1.

Definition set_lead_score (v : Z) (l : t) : t :=
  mk (id l) (company_name l) (contact_name l) (email l) (phone l) (website l)
     (service_type l) (service_date l) (pickup_location l) (destination l)
     (passenger_count l) (estimated_value l) (budget_tier l)
     (company_size_estimate l) v (status l) (priority_level l)
     (distance_from_base l) (converted_at l) (last_contact_at l)
     (created_at l).

Definition set_priority_level (v : Z) (l : t) : t :=
  mk (id l) (company_name l) (contact_name l) (email l) (phone l) (website l)
     (service_type l) (service_date l) (pickup_location l) (destination l)
     (passenger_count l) (estimated_value l) (budget_tier l)
     (company_size_estimate l) (lead_score l) (status l) v
     (distance_from_base l) (converted_at l) (last_contact_at l)
     (created_at l).

Definition set_status (v : Status) (l : t) : t :=
  mk (id l) (company_name l) (contact_name l) (email l) (phone l) (website l)
     (service_type l) (service_date l) (pickup_location l) (destination l)
     (passenger_count l) (estimated_value l) (budget_tier l)
     (company_size_estimate l) (lead_score l) v (priority_level l)
     (distance_from_base l) (converted_at l) (last_contact_at l)
     (created_at l).

Definition set_converted_at (v : option Z) (l : t) : t :=
  mk (id l) (company_name l) (contact_name l) (email l) (phone l) (website l)
     (service_type l) (service_date l) (pickup_location l) (destination l)
     (passenger_count l) (estimated_value l) (budget_tier l)
     (company_size_estimate l) (lead_score l) (status l) (priority_level l)
     (distance_from_base l) v (last_contact_at l) (created_at l).

Definition set_last_contact_at (v : option Z) (l : t) : t :=
  mk (id l) (company_name l) (contact_name l) (email l) (phone l) (website l)
     (service_type l) (service_date l) (pickup_location l) (destination l)
     (passenger_count l) (estimated_value l) (budget_tier l)
     (company_size_estimate l) (lead_score l) (status l) (priority_level l)
     (distance_from_base l) (converted_at l) v (created_at l).

Definition set_company_name (v : option string) (l : t) : t :=
  mk (id l) v (contact_name l) (email l) (phone l) (website l)
     (service_type l) (service_date l) (pickup_location l) (destination l)
     (passenger_count l) (estimated_value l) (budget_tier l)
     (company_size_estimate l) (lead_score l) (status l) (priority_level l)
     (distance_from_base l) (converted_at l) (last_contact_at l)
     (created_at l).

Definition set_phone (v : option string) (l : t) : t :=
  mk (id l) (company_name l) (contact_name l) (email l) v (website l)
     (service_type l) (service_date l) (pickup_location l) (destination l)
     (passenger_count l) (estimated_value l) (budget_tier l)
     (company_size_estimate l) (lead_score l) (status l) (priority_level l)
     (distance_from_base l) (converted_at l) (last_contact_at l)
     (created_at l).

Definition set_service_type (v : string) (l : t) : t :=
  mk (id l) (company_name l) (contact_name l) (email l) (phone l) (website l)
     v (service_date l) (pickup_location l) (destination l)
     (passenger_count l) (estimated_value l) (budget_tier l)
     (company_size_estimate l) (lead_score l) (status l) (priority_level l)
     (distance_from_base l) (converted_at l) (last_contact_at l)
     (created_at l).

Definition set_passenger_count (v : Js.num) (l : t) : t :=
  mk (id l) (company_name l) (contact_name l) (email l) (phone l) (website l)
     (service_type l) (service_date l) (pickup_location l) (destination l)
     v (estimated_value l) (budget_tier l)
     (company_size_estimate l) (lead_score l) (status l) (priority_level l)
     (distance_from_base l) (converted_at l) (last_contact_at l)
     (created_at l).

Definition set_estimated_value (v : Js.num) (l : t) : t :=
  mk (id l) (company_name l) (contact_name l) (email l) (phone l) (website l)
     (service_type l) (service_date l) (pickup_location l) (destination l)
     (passenger_count l) v (budget_tier l)
     (company_size_estimate l) (lead_score l) (status l) (priority_level l)
     (distance_from_base l) (converted_at l) (last_contact_at l)
     (created_at l).

Definition set_distance_from_base (v : Js.num) (l : t) : t :=
  mk (id l) (company_name l) (contact_name l) (email l) (phone l) (website l)
     (service_type l) (service_date l) (pickup_location l) (destination l)
     (passenger_count l) (estimated_value l) (budget_tier l)
     (company_size_estimate l) (lead_score l) (status l) (priority_level l)
     v (converted_at l) (last_contact_at l) (created_at l).

(** The identifier and the creation time a new row is given. *)
Definition stamp (newId now : Z) (l : t) : t :=
  mk newId (company_name l) (contact_name l) (email l) (phone l) (website l)
     (service_type l) (service_date l) (pickup_location l) (destination l)
     (passenger_count l) (estimated_value l) (budget_tier l)
     (company_size_estimate l) (lead_score l) (status l) (priority_level l)
     (distance_from_base l) (converted_at l) (last_contact_at l) now.

(** [Lead.prototype.updatePriority]. *)
Definition updatePriority (this : t) : t :=
  set_priority_level (priority_of_score (lead_score this)) this.

(** The [beforeCreate] hook. *)
Definition beforeCreate (lead : t) : t :=
  updatePriority (set_lead_score (calculateScore lead) lead).

(** One key of the object passed to [lead.update(values)].  [notes_is]
    stands for the keys that are not attributes of the model ([notes],
    [lost_reason], ...): setting them changes nothing. *)
Inductive assignment : Type :=
| company_name_is (v : option string)
| phone_is (v : option string)
| service_type_is (v : string)
| passenger_count_is (v : Js.num)
| estimated_value_is (v : Js.num)
| distance_from_base_is (v : Js.num)
| lead_score_is (v : Z)
| status_is (v : Status)
| priority_level_is (v : Z)
| converted_at_is (v : option Z)
| last_contact_at_is (v : option Z)
| notes_is (v : string).

Definition assign (l : t) (a : assignment) : t :=
  match a with
  | company_name_is v => set_company_name v l
  | phone_is v => set_phone v l
  | service_type_is v => set_service_type v l
  | passenger_count_is v => set_passenger_count v l
  | estimated_value_is v => set_estimated_value v l
  | distance_from_base_is v => set_distance_from_base v l
  | lead_score_is v => set_lead_score v l
  | status_is v => set_status v l
  | priority_level_is v => set_priority_level v l
  | converted_at_is v => set_converted_at v l
  | last_contact_at_is v => set_last_contact_at v l
  | notes_is _ => l
  end.

(** [lead.set(values)]: the keys in the order of the object. *)
Definition set (values : list assignment) (l : t) : t :=
  fold_left assign values l.

(** The condition of the [beforeUpdate] hook: [changed(key)] for one of
    the four keys.  [previous] holds the values before the update, which
    [changed] compares the instance with. *)
Definition scoring_changed (previous lead : t) : bool :=
  negb (Js.num_eqb (estimated_value lead) (estimated_value previous))
  || negb (String.eqb (service_type lead) (service_type previous))
  || negb (Js.num_eqb (passenger_count lead) (passenger_count previous))
  || negb (Js.num_eqb (distance_from_base lead) (distance_from_base previous)).

(** The [beforeUpdate] hook. *)
Definition beforeUpdate (now : Z) (previous lead : t) : t :=
  let lead :=
    if scoring_changed previous lead
    then updatePriority (set_lead_score (calculateScore lead) lead)
    else lead in
  if negb (Status_eqb (status lead) (status previous))
     && Status_eqb (status lead) converted
  then set_converted_at (Some now) lead
  else lead.

(** [lead.update(values)] once the validators of the model have let the
    values through, every key of [values] holding a defined value: the
    values are set, then the hook runs and the row is written. *)
Definition update (now : Z) (values : list assignment) (l : t) : t :=
  beforeUpdate now l (set values l).

(** [Lead.create(values)] as far as the hook goes: the instance as the
    hook leaves it, before the insert. *)
Definition create (values : t) : t := beforeCreate values.

(** [Lead.prototype.isHighValue]. *)
Definition isHighValue (this : t) : bool :=
  Js.ge (estimated_value this) 1000 || (70 <=? lead_score this).

(** The keys of an update that [calculateScore] reads, and the stored
    score itself. *)
Definition scoring_key (a : assignment) : bool :=
  match a with
  | company_name_is _ | service_type_is _ | passenger_count_is _
  | estimated_value_is _ | distance_from_base_is _ | lead_score_is _ => true
  | _ => false
  end.



End Lead.

(* ================================================================== *)
(** * The ScoringFactor model                                          *)
(* ================================================================== *)

Module ScoringFactor.

(** A row of [scoring_factors].  [value_mappings] is the JSON object, as
    the list of its entries in the order [Object.entries] yields them;
    [None] is null. *)
Record t : Type := mk {
  factor_name : string;
  factor_category : string;
  weight : Z;
  calculation_method : string;
  value_mappings : option (list (string * Z));
  active : bool
}.

Definition mappings_of (this : t) : list (string * Z) :=
  match value_mappings this with Some m => m | None => [] end.

(** [ScoringFactor.prototype.valueInRange]. *)
Definition valueInRange (value : Q) (range : string) : bool :=
  if Js.includes "+"%char range then
    (* ranges like "1000+" *)
    match Js.parseInt (Js.remove_first "+"%char range) with
    | Some minValue => Qle_bool minValue value
    | None => false
    end
  else if Js.includes "-"%char range then
    (* ranges like "500-999" *)
    match map Js.Number (Js.split "-"%char range) with
    | Some min :: Some max :: _ => Qle_bool min value && Qle_bool value max
    | _ => false
    end
  else
    (* exact values *)
    match Js.parseInt range with
    | Some v => Qeq_bool value v
    | None => false
    end.

(** [calculateExactMatch]. *)
Definition calculateExactMatch (this : t) (lead : Lead.t)
    (mappings : list (string * Z)) : Z :=
  if String.eqb (factor_name this) "company_name_present" then
    Js.lookup (if Js.non_empty (Lead.company_name lead)
               then "present" else "absent") mappings
  else if String.eqb (factor_name this) "service_type_priority" then
    Js.lookup (Lead.service_type lead) mappings
  else if String.eqb (factor_name this) "budget_tier" then
    Js.lookup (Js.key (Lead.budget_tier lead)) mappings
  else 0.

(** The loop of [calculateRange]: the first entry whose range holds the
    value gives the score. *)
Fixpoint first_in_range (value : Q) (entries : list (string * Z)) : Z :=
  match entries with
  | (range, score) :: rest =>
      if valueInRange value range then score else first_in_range value rest
  | [] => 0
  end.

(** [calculateRange]. *)
Definition calculateRange (this : t) (lead : Lead.t)
    (mappings : list (string * Z)) : Z :=
  if String.eqb (factor_name this) "estimated_value_tier" then
    first_in_range (Js.or_else (Lead.estimated_value lead) 0) mappings
  else if String.eqb (factor_name this) "geographic_proximity" then
    first_in_range (Js.or_else (Lead.distance_from_base lead) 999) mappings
  else if String.eqb (factor_name this) "group_size_factor" then
    first_in_range (Js.or_else (Lead.passenger_count lead) 1) mappings
  else if String.eqb (factor_name this) "company_size_estimate" then
    first_in_range (Js.or_else (Lead.company_size_estimate lead) 0) mappings
  else 0.

(** [calculateDynamic]; [now] is the [new Date()] it reads. *)
Definition calculateDynamic (now : Z) (this : t) (lead : Lead.t)
    (mappings : list (string * Z)) : Z :=
  if String.eqb (factor_name this) "timing_urgency" then
    match Lead.service_date lead with
    | None => Js.lookup "future" mappings
    | Some serviceDate =>
        let hoursUntilService :=
          Qmake (serviceDate - now) (Z.to_pos Js.ms_per_hour) in
        if Qle_bool hoursUntilService 24 then Js.lookup "same_day" mappings
        else if Qle_bool hoursUntilService 48
             then Js.lookup "next_day" mappings
        else Js.lookup "future" mappings
    end
  else if String.eqb (factor_name this) "contact_completeness" then
    let completeness := 0 in
    let completeness :=
      if Js.truthy (Lead.email lead) then completeness + 25
      else completeness in
    let completeness :=
      if Js.truthy (Lead.phone lead) then completeness + 25
      else completeness in
    let completeness :=
      if Js.truthy (Lead.company_name lead) then completeness + 25
      else completeness in
    let completeness :=
      if Js.truthy (Lead.pickup_location lead)
         || Js.truthy (Lead.destination lead)
      then completeness + 25 else completeness in
    if 100 <=? completeness then Js.lookup "complete" mappings
    else if 75 <=? completeness then Js.lookup "mostly_complete" mappings
    else if 50 <=? completeness then Js.lookup "partial" mappings
    else Js.lookup "minimal" mappings
  else 0.

(** [calculateBoolean]. *)
Definition calculateBoolean (this : t) (lead : Lead.t)
    (mappings : list (string * Z)) : Z :=
  let condition :=
    if String.eqb (factor_name this) "has_website" then
      Js.non_empty (Lead.website lead)
    else if String.eqb (factor_name this) "repeat_customer" then
      false
    else if String.eqb (factor_name this) "weekend_submission" then
      let dayOfWeek := Js.getDay (Lead.created_at lead) in
      (dayOfWeek =? 0) || (dayOfWeek =? 6)
    else false in
  if condition then Js.lookup "true" mappings else Js.lookup "false" mappings.

(** [ScoringFactor.prototype.calculateScore]. *)
Definition calculateScore (now : Z) (this : t) (lead : Lead.t) : Z :=
  if negb (active this) then 0
  else
    let mappings := mappings_of this in
    if String.eqb (calculation_method this) "exact_match" then
      calculateExactMatch this lead mappings
    else if String.eqb (calculation_method this) "range" then
      calculateRange this lead mappings
    else if String.eqb (calculation_method this) "calculation" then
      calculateDynamic now this lead mappings
    else if String.eqb (calculation_method this) "boolean" then
      calculateBoolean this lead mappings
    else 0.

(** [ScoringFactor.findActive] on the rows of the table.  The query also
    orders the rows; the callers below only add their scores up. *)
Definition findActive (table : list t) : list t :=
  filter active table.

(** The loop of [calculateLeadScore]. *)
Definition totalScore (now : Z) (factors : list t) (lead : Lead.t) : Z :=
  fold_left (fun total factor => total + calculateScore now factor lead)
            factors 0.

(** [ScoringFactor.calculateLeadScore]. *)
Definition calculateLeadScore (now : Z) (table : list t) (lead : Lead.t)
    : Z :=
  Js.min (totalScore now (findActive table) lead) 100.

(** The factors [createDefaultFactors] inserts; the entries of each
    mapping stand in the order [Object.entries] gives them on the object
    written there (a key that is a whole number comes first). *)
Definition defaultFactors : list t :=
  [ mk "company_name_present" "company" 10 "exact_match"
       (Some [("present", 10); ("absent", 0)]) true;
    mk "estimated_value_tier" "service" 30 "range"
       (Some [("1000+", 30); ("500-999", 20); ("100-499", 10); ("0-99", 5)])
       true;
    mk "service_type_priority" "service" 25 "exact_match"
       (Some [("corporate", 25); ("airport", 20); ("events", 15);
              ("wedding", 15); ("hourly", 10)]) true;
    mk "geographic_proximity" "geographic" 15 "range"
       (Some [("0-25", 15); ("26-50", 10); ("51-100", 5); ("100+", 0)]) true;
    mk "group_size_factor" "service" 15 "range"
       (Some [("1", 0); ("8+", 15); ("4-7", 10); ("2-3", 5)]) true;
    mk "timing_urgency" "timing" 5 "calculation"
       (Some [("same_day", 5); ("next_day", 3); ("future", 1)]) true ].



(** The order of [findActive]: weight descending, then name
    ascending. *)
Definition by_weight (f g : t) : bool :=
  (weight g <? weight f)
  || ((weight f =? weight g) && String.leb (factor_name f) (factor_name g)).

(** [findActive] with its order. *)
Definition findActive_ordered (table : list t) : list t :=
  Sql.order_by by_weight (filter active table).

(** An entry of the breakdown (the description of the factor, which the
    entry also carries, is not among the attributes modelled). *)
Record entry : Type := mkEntry {
  entry_name : string;
  entry_category : string;
  entry_weight : Z;
  entry_score : Z
}.

Record breakdown : Type := mkBreakdown {
  total_score : Z;
  factors : list entry
}.

(** [ScoringFactor.getScoreBreakdown]. *)
Definition getScoreBreakdown (now : Z) (table : list t) (lead : Lead.t)
    : breakdown :=
  let b :=
    fold_left
      (fun b factor =>
         let score := calculateScore now factor lead in
         mkBreakdown (total_score b + score)
           (factors b
            ++ [mkEntry (factor_name factor) (factor_category factor)
                  (weight factor) score]))
      (findActive_ordered table) (mkBreakdown 0 []) in
  mkBreakdown (Js.min (total_score b) 100) (factors b).

(** The factor with another weight. *)
Definition with_weight (w : Z) (f : t) : t :=
  mk (factor_name f) (factor_category f) w (calculation_method f)
     (value_mappings f) (active f).

End ScoringFactor.

(* ================================================================== *)
(** * The EmailSequence model and the handlers that write it           *)
(* ================================================================== *)

Module EmailSequence.

Record t : Type := mk {
  id : Z;
  lead_id : Z;
  sequence_name : string;
  current_step : Z;
  total_steps : Z;
  next_send_at : option Z;
  completed_at : option Z;
  active : bool;
  paused_reason : option string;
  emails_sent : Z;
  emails_opened : Z;
  responses_received : Z
}.

(** The timing tables of [calculateNextSendTime], in minutes. *)
Definition sequences : list (string * list Z) :=
  [ ("standard_follow_up", [0; 3 * 24 * 60; 7 * 24 * 60; 14 * 24 * 60]);
    ("high_value_follow_up", [0; 2 * 60; 24 * 60; 3 * 24 * 60]);
    ("corporate_nurture", [0; 24 * 60; 7 * 24 * 60; 30 * 24 * 60]);
    ("wedding_follow_up", [0; 2 * 24 * 60; 7 * 24 * 60; 21 * 24 * 60]) ].

Definition standard_timing : list Z :=
  [0; 3 * 24 * 60; 7 * 24 * 60; 14 * 24 * 60].

(** [table[name] || fallback]. *)
Fixpoint table_or {A : Type} (name : string) (table : list (string * A))
    (fallback : A) : A :=
  match table with
  | (k, v) :: rest => if String.eqb name k then v else table_or name rest fallback
  | [] => fallback
  end.

(** [array[i]]: [None] is undefined. *)
Definition index {A : Type} (array : list A) (i : Z) : option A :=
  if i <? 0 then None else nth_error array (Z.to_nat i).

Definition timingMinutes (this : t) : list Z :=
  table_or (sequence_name this) sequences standard_timing.

Definition set_next_send_at (v : option Z) (s : t) : t :=
  mk (id s) (lead_id s) (sequence_name s) (current_step s) (total_steps s)
     v (completed_at s) (active s) (paused_reason s) (emails_sent s)
     (emails_opened s) (responses_received s).

Definition set_current_step (v : Z) (s : t) : t :=
  mk (id s) (lead_id s) (sequence_name s) v (total_steps s)
     (next_send_at s) (completed_at s) (active s) (paused_reason s)
     (emails_sent s) (emails_opened s) (responses_received s).

Definition set_emails_sent (v : Z) (s : t) : t :=
  mk (id s) (lead_id s) (sequence_name s) (current_step s) (total_steps s)
     (next_send_at s) (completed_at s) (active s) (paused_reason s) v
     (emails_opened s) (responses_received s).

Definition set_responses_received (v : Z) (s : t) : t :=
  mk (id s) (lead_id s) (sequence_name s) (current_step s) (total_steps s)
     (next_send_at s) (completed_at s) (active s) (paused_reason s)
     (emails_sent s) (emails_opened s) v.

(** [calculateNextSendTime]. *)
Definition calculateNextSendTime (now : Z) (this : t) : t :=
  let timing := timingMinutes this in
  if current_step this <=? Z.of_nat (List.length timing) then
    let delayMinutes :=
      match index timing (current_step this - 1) with
      | Some d => d
      | None => 0
      end in
    set_next_send_at (Some (now + delayMinutes * 60 * 1000)) this
  else this.

(** [complete]. *)
Definition complete (now : Z) (this : t) : t :=
  mk (id this) (lead_id this) (sequence_name this) (current_step this)
     (total_steps this) None (Some now) false (paused_reason this)
     (emails_sent this) (emails_opened this) (responses_received this).

(** [pause]. *)
Definition pause (reason : string) (this : t) : t :=
  mk (id this) (lead_id this) (sequence_name this) (current_step this)
     (total_steps this) None (completed_at this) false (Some reason)
     (emails_sent this) (emails_opened this) (responses_received this).

(** [resume]. *)
Definition resume (now : Z) (this : t) : t :=
  calculateNextSendTime now
    (mk (id this) (lead_id this) (sequence_name this) (current_step this)
        (total_steps this) (next_send_at this) (completed_at this) true None
        (emails_sent this) (emails_opened this) (responses_received this)).

(** [advance]. *)
Definition advance (now : Z) (this : t) : t :=
  if current_step this <? total_steps this then
    calculateNextSendTime now (set_current_step (current_step this + 1) this)
  else
    complete now this.

(** [recordEmailSent]. *)
Definition recordEmailSent (this : t) : t :=
  set_emails_sent (emails_sent this + 1) this.

(** [recordResponse]. *)
Definition recordResponse (now : Z) (this : t) : t :=
  complete now (set_responses_received (responses_received this + 1) this).

(** [sequenceConfig] of [createStandardSequence]: the number of steps. *)
Definition sequenceConfig : list (string * Z) :=
  [ ("standard_follow_up", 4); ("high_value_follow_up", 4);
    ("corporate_nurture", 4); ("wedding_follow_up", 4) ].

(** The table of sequences: its rows, oldest first.  A new row takes the
    next free identifier. *)
Definition table : Type := list t.

Definition fresh_id (rows : table) : Z := Z.of_nat (List.length rows).

(** [EmailSequence.createStandardSequence]: the row gets the defaults of
    the model and the [beforeCreate] hook sets the first send time. *)
Definition createStandardSequence (now : Z) (leadId : Z)
    (sequenceType : string) (rows : table) : t * table :=
  let steps := table_or sequenceType sequenceConfig 4 in
  let row :=
    calculateNextSendTime now
      (mk (fresh_id rows) leadId sequenceType 1 steps None None true None
          0 0 0) in
  (row, rows ++ [row]).

(** [findAll({ where: { lead_id, active: true } })]. *)
Definition findActive (leadId : Z) (rows : table) : list t :=
  filter (fun s => (lead_id s =? leadId) && active s) rows.

(** [instance.save()]: the row with the identifier of the instance is
    replaced. *)
Definition save (s : t) (rows : table) : table :=
  map (fun r => if id r =? id s then s else r) rows.

(** [findByPk]. *)
Definition findByPk (sequenceId : Z) (rows : table) : option t :=
  find (fun r => id r =? sequenceId) rows.

(** The end of [processInstantResponse], once the first email went out:
    a follow-up sequence is created when the lead has no active one. *)
Definition processInstantResponse (now : Z) (lead : Lead.t) (rows : table)
    : table :=
  let existingSequences := findActive (Lead.id lead) rows in
  if (List.length existingSequences =? 0)%nat then
    let sequenceType :=
      if 70 <=? Lead.lead_score lead then "high_value_follow_up"
      else if String.eqb (Lead.service_type lead) "corporate"
           then "corporate_nurture"
      else if String.eqb (Lead.service_type lead) "wedding"
           then "wedding_follow_up"
      else "standard_follow_up" in
    snd (createStandardSequence now (Lead.id lead) sequenceType rows)
  else rows.

Inductive action : Type := resumed | created.

(** The [follow_up_sequence] case of [POST /automation/trigger]. *)
Definition trigger_follow_up_sequence (now : Z) (lead : Lead.t)
    (rows : table) : (Z * action) * table :=
  match findActive (Lead.id lead) rows with
  | existingSequence :: _ =>
      ((id existingSequence, resumed),
       save (resume now existingSequence) rows)
  | [] =>
      let sequenceType :=
        if 70 <=? Lead.lead_score lead then "high_value_follow_up"
        else "standard_follow_up" in
      let '(sequence, rows') :=
        createStandardSequence now (Lead.id lead) sequenceType rows in
      ((id sequence, created), rows')
  end.

(** The step templates of [processSequenceStep]. *)
Definition stepTemplates : list (string * list string) :=
  [ ("standard_follow_up",
     ["instant_response"; "follow_up_3day"; "follow_up_7day";
      "follow_up_14day"]);
    ("high_value_follow_up",
     ["instant_response"; "follow_up_2hour"; "follow_up_1day";
      "follow_up_3day"]);
    ("corporate_nurture",
     ["corporate_instant_response"; "corporate_follow_up";
      "corporate_proposal"; "corporate_final"]);
    ("wedding_follow_up",
     ["wedding_instant_response"; "wedding_follow_up"; "wedding_package";
      "wedding_final"]) ].

Inductive step_status : Type :=
| skipped | completed | paused | step_completed | thrown.

(** What [processFollowUp] did with the email of the step. *)
Inductive follow_up_result : Type :=
| email_sent
| email_not_sent   (* skipped or rescheduled *)
| email_failed.    (* the call threw *)

(** [processSequenceStep].  What the handler reads from outside the table
    is given: the status of the lead, whether the customer answered in the
    last 24 hours, and what became of the follow-up email. *)
Definition processSequenceStep (now : Z) (sequenceId : Z)
    (leadStatus : Lead.Status) (customerResponded : bool)
    (followUpResult : follow_up_result) (rows : table)
    : step_status * table :=
  match findByPk sequenceId rows with
  | None => (skipped, rows)
  | Some sequence =>
      if negb (active sequence) then (skipped, rows)
      else if Lead.Status_eqb leadStatus Lead.converted
              || Lead.Status_eqb leadStatus Lead.lost
      then (completed, save (complete now sequence) rows)
      else if customerResponded
      then (paused, save (pause "customer_responded" sequence) rows)
      else
        let templates :=
          table_or (sequence_name sequence) stepTemplates
            ["instant_response"; "follow_up_3day"; "follow_up_7day";
             "follow_up_14day"] in
        match index templates (current_step sequence - 1) with
        | None | Some EmptyString =>
            (completed, save (complete now sequence) rows)
        | Some _ =>
            match followUpResult with
            | email_sent =>
                (step_completed,
                 save (advance now (recordEmailSent sequence)) rows)
            | email_not_sent => (step_completed, rows)
            | email_failed => (thrown, rows)
            end
        end
  end.

(** The update [PUT /leads/:leadId] runs when the status becomes
    converted or lost: every active sequence of the lead is closed. *)
Definition close_for_lead (now : Z) (leadId : Z) (rows : table) : table :=
  map (fun s =>
         if (lead_id s =? leadId) && active s
         then mk (id s) (lead_id s) (sequence_name s) (current_step s)
                 (total_steps s) (next_send_at s) (Some now) false
                 (paused_reason s) (emails_sent s) (emails_opened s)
                 (responses_received s)
         else s) rows.

(** What can happen to the table of sequences. *)
Inductive event : Type :=
| instant_response (now : Z) (lead : Lead.t)
| trigger (now : Z) (lead : Lead.t)
| sequence_step (now : Z) (sequenceId : Z) (leadStatus : Lead.Status)
    (customerResponded : bool) (followUpResult : follow_up_result)
| response_recorded (now : Z) (sequenceId : Z)
| lead_closed (now : Z) (leadId : Z).

Definition step (rows : table) (e : event) : table :=
  match e with
  | instant_response now lead => processInstantResponse now lead rows
  | trigger now lead => snd (trigger_follow_up_sequence now lead rows)
  | sequence_step now sequenceId leadStatus responded sent =>
      snd (processSequenceStep now sequenceId leadStatus responded sent rows)
  | response_recorded now sequenceId =>
      match findByPk sequenceId rows with
      | Some s => save (recordResponse now s) rows
      | None => rows
      end
  | lead_closed now leadId => close_for_lead now leadId rows
  end.

Definition run (events : list event) : table := fold_left step events [].




(** [advance] applied once per given time. *)
Definition advance_all (times : list Z) (s : t) : t :=
  fold_left (fun s now => advance now s) times s.

(** The condition of [findDue]: active, with a send time that has
    come. *)
Definition due (now : Z) (s : t) : bool :=
  active s
  && match next_send_at s with
     | Some at_ => at_ <=? now
     | None => false
     end.

(** Ascending [next_send_at], rows without one last. *)
Definition by_next_send_at (a b : t) : bool :=
  match next_send_at a, next_send_at b with
  | Some x, Some y => x <=? y
  | _, None => true
  | None, Some _ => false
  end.

(** [EmailSequence.findDue]. *)
Definition findDue (now : Z) (rows : table) : list t :=
  Sql.order_by by_next_send_at (filter (due now) rows).

(** The lead is neither converted nor lost. *)
Definition open (st : Lead.Status) : bool :=
  negb (Lead.Status_eqb st Lead.converted || Lead.Status_eqb st Lead.lost).

End EmailSequence.

(* ================================================================== *)
(** * The form-submission webhook                                      *)
(* ================================================================== *)

Module Webhooks.

(** A row of [webhook_logs]. *)
Record WebhookLog : Type := mkLog {
  source : string;
  event_type : string;
  processed : bool;
  processed_at : option Z;
  error_message : option string;
  retry_count : Z;
  log_lead_id : option Z
}.

(** [WebhookLog.createFromRequest]. *)
Definition createFromRequest (source event_type : string) : WebhookLog :=
  mkLog source event_type false None None 0 None.

(** [markProcessed(leadId)]; an identifier is never falsy. *)
Definition markProcessed (now : Z) (leadId : Z) (this : WebhookLog)
    : WebhookLog :=
  mkLog (source this) (event_type this) true (Some now) None
        (retry_count this) (Some leadId).

(** [markFailed(errorMessage)]. *)
Definition markFailed (errorMessage : string) (this : WebhookLog)
    : WebhookLog :=
  mkLog (source this) (event_type this) false (processed_at this)
        (Some errorMessage) (retry_count this + 1) (log_lead_id this).

(** The fields of the request body that end up in the lead ([None] and
    [Js.undefined]: the key is missing). *)
Record body : Type := mkBody {
  b_company_name : option string;
  b_contact_name : string;
  b_email : string;
  b_phone : option string;
  b_website : option string;
  b_service_type : string;
  b_service_date : option Z;
  b_pickup_location : option string;
  b_destination : option string;
  b_passenger_count : Js.num;
  b_estimated_value : Js.num;
  b_budget_tier : option string
}.

(** [s || null] and [s || ''] on a string of the body. *)
Definition or_null (s : option string) : option string :=
  if Js.truthy s then s else None.

Definition or_empty (s : option string) : option string :=
  if Js.truthy s then s else Some EmptyString.

(** [n || null] on a number of the body. *)
Definition num_or_null (n : Js.num) : Js.num :=
  match n with
  | Js.number q => if Qeq_bool q 0 then Js.null else n
  | _ => Js.null
  end.


Definition same_email (e : string) (l : Lead.t) : bool :=
  match Lead.email l with
  | Some e' => String.eqb e e'
  | None => false
  end.

(** [leadData] of the handler, with the defaults the model gives a new
    row; the identifier and the creation time come with the insert. *)
Definition leadData (req : body) : Lead.t :=
  Lead.mk 0
    (or_empty (b_company_name req))
    (b_contact_name req)
    (Some (b_email req))
    (or_null (b_phone req))
    (or_null (b_website req))
    (b_service_type req)
    (b_service_date req)
    (or_null (b_pickup_location req))
    (or_null (b_destination req))
    (num_or_null (b_passenger_count req))
    (num_or_null (b_estimated_value req))
    (or_null (b_budget_tier req))
    Js.undefined
    0 Lead.new 3
    Js.undefined
    None None 0.

Inductive create_error : Type := ValidationError | UniqueConstraintError.

Definition fresh_id (rows : list Lead.t) : Z := Z.of_nat (List.length rows).

(** [Lead.create]: the validators of the model ([valid], given), the
    [beforeCreate] hook, then the insert, which the unique index on
    [email] refuses when a row has the same address.  The lead is given
    as the hook left it: an attribute that was not passed is still
    [undefined] here, where the row that was inserted holds [null]. *)
Definition Lead_create (valid : Lead.t -> bool) (now : Z) (values : Lead.t)
    (rows : list Lead.t) : create_error + (Lead.t * list Lead.t) :=
  if negb (valid values) then inl ValidationError
  else
    let lead := Lead.stamp (fresh_id rows) now (Lead.create values) in
    match Lead.email lead with
    | Some e =>
        if existsb (same_email e) rows then inl UniqueConstraintError
        else inr (lead, rows ++ [lead])
    | None => inr (lead, rows ++ [lead])
    end.

Definition message (e : create_error) : string :=
  match e with
  | ValidationError => "Validation error"
  | UniqueConstraintError => "email must be unique"
  end.






(** The number of leads with a given email. *)
Definition count_email (e : string) (rows : list Lead.t) : nat :=
  List.length (filter (same_email e) rows).

(** The unique index on [email]. *)
Definition unique_emails (rows : list Lead.t) : Prop :=
  forall e, (count_email e rows <= 1)%nat.

(** [canRetry(maxRetries)]. *)
Definition canRetry (maxRetries : Z) (this : WebhookLog) : bool :=
  (retry_count this <? maxRetries) && negb (processed this).

(** [WebhookLog.findForRetry]; the rows are kept in the order they were
    created. *)
Definition findForRetry (maxRetries : Z) (logs : list WebhookLog)
    : list WebhookLog :=
  filter (fun l => negb (processed l) && (retry_count l <? maxRetries)) logs.

(** [markProcessed()] without a lead to link. *)
Definition markProcessed_unlinked (now : Z) (this : WebhookLog)
    : WebhookLog :=
  mkLog (source this) (event_type this) true (Some now) None
        (retry_count this) (log_lead_id this).

(** The keys of a stored [website_form] payload that [extractLeadData]
    reads ([None] and [Js.undefined]: the key is missing). *)
Record payload : Type := mkPayload {
  p_company_name : option string;
  p_contact_name : option string;
  p_name : option string;
  p_email : option string;
  p_phone : option string;
  p_service_type : option string;
  p_pickup_location : option string;
  p_pickup : option string;
  p_destination : option string;
  p_estimated_value : Js.num
}.

(** [a || d] and [a || b || d] on strings of the payload, [d] a literal
    that is not empty or the last resort. *)
Definition or_string (a : option string) (d : string) : string :=
  if Js.truthy a then Js.key a else d.

Definition or_string2 (a b : option string) (d : string) : string :=
  if Js.truthy a then Js.key a else or_string b d.

(** [extractLeadData] for a [website_form] payload; the keys it does not
    copy stay undefined, and the keys that are not attributes of the
    model ([source], [utm_source], ...) are left out. *)
Definition extractLeadData (p : payload) : Lead.t :=
  Lead.mk 0
    (Some (or_string (p_company_name p) EmptyString))
    (or_string2 (p_contact_name p) (p_name p) EmptyString)
    (Some (or_string (p_email p) EmptyString))
    (Some (or_string (p_phone p) EmptyString))
    None
    (or_string (p_service_type p) "corporate")
    None
    (Some (or_string2 (p_pickup_location p) (p_pickup p) EmptyString))
    (Some (or_string (p_destination p) EmptyString))
    Js.undefined
    (Js.number (Js.or_else (p_estimated_value p) 0))
    None
    Js.undefined
    0 Lead.new 3
    Js.undefined
    None None 0.

(** [replayFormSubmissionWebhook]: the lead with the email of the
    extracted data if there is one, a new lead otherwise; an error of the
    insert is caught and returned. *)
Definition replayFormSubmissionWebhook (valid : Lead.t -> bool) (now : Z)
    (p : payload) (rows : list Lead.t)
    : (string + Z) * list Lead.t :=
  let data := extractLeadData p in
  match find (same_email (Js.key (Lead.email data))) rows with
  | Some existingLead => (inr (Lead.id existingLead), rows)
  | None =>
      match Lead_create valid now data rows with
      | inr (lead, rows') => (inr (Lead.id lead), rows')
      | inl error => (inl (message error), rows)
      end
  end.

Inductive replay_status : Type :=
| replay_skipped
| replay_abandoned (retries : Z)
| replay_completed
| replay_failed
| replay_thrown.

(** [processWebhookReplay]; [log] is the row [findByPk] finds, [payload]
    its payload. *)
Definition processWebhookReplay (valid : Lead.t -> bool) (now : Z)
    (maxRetries : Z) (log : option WebhookLog) (payload : payload)
    (rows : list Lead.t)
    : replay_status * option WebhookLog * list Lead.t :=
  match log with
  | None => (replay_thrown, None, rows)
  | Some webhookLog =>
      if processed webhookLog then (replay_skipped, log, rows)
      else if maxRetries <=? retry_count webhookLog
      then (replay_abandoned (retry_count webhookLog), log, rows)
      else if String.eqb (source webhookLog) "website_form" then
        match replayFormSubmissionWebhook valid now payload rows with
        | (inr leadId, rows') =>
            (replay_completed, Some (markProcessed now leadId webhookLog),
             rows')
        | (inl error, rows') =>
            (replay_failed, Some (markFailed error webhookLog), rows')
        end
      else if String.eqb (source webhookLog) "zoho_crm"
              || String.eqb (source webhookLog) "email_provider"
      then (replay_completed, Some (markProcessed_unlinked now webhookLog),
            rows)
      else (replay_thrown,
            Some (markFailed
                    ("Unsupported webhook source: " ++ source webhookLog)%string
                    webhookLog),
            rows)
  end.

(** The replay jobs of one webhook run one after the other, at the given
    times. *)
Fixpoint replay_all (valid : Lead.t -> bool) (maxRetries : Z)
    (payload : payload) (times : list Z) (log : option WebhookLog)
    (rows : list Lead.t) : option WebhookLog * list Lead.t :=
  match times with
  | [] => (log, rows)
  | now :: rest =>
      let '(_, log', rows') :=
        processWebhookReplay valid now maxRetries log payload rows in
      replay_all valid maxRetries payload rest log' rows'
  end.

(** The status names of the CRM, as [mapLeadStatusToZoho] writes them
    (the status of a lead is one of the five values, so the fallback of
    the function is not reached). *)
Definition mapLeadStatusToZoho (tntStatus : Lead.Status) : string :=
  match tntStatus with
  | Lead.new => "Not Contacted"
  | Lead.contacted => "Contacted"
  | Lead.qualified => "Qualified"
  | Lead.converted => "Converted"
  | Lead.lost => "Lost Lead"
  end.

(** [statusMap] of the [lead_updated] event. *)
Definition statusMap : list (string * Lead.Status) :=
  [ ("Not Contacted", Lead.new); ("Contacted", Lead.contacted);
    ("Qualified", Lead.qualified); ("Converted", Lead.converted);
    ("Lost Lead", Lead.lost) ].

Fixpoint status_of (name : string) (m : list (string * Lead.Status))
    : option Lead.Status :=
  match m with
  | (k, v) :: rest => if String.eqb name k then Some v else status_of name rest
  | [] => None
  end.

(** The [lead_updated] event of [POST /crm-updates] on a lead that was
    found: [Lead_Status] and [Annual_Revenue] are the two keys of [data]
    it reads ([None]: missing or falsy).  The revenue is a number; a
    status name that is a property every object inherits is not
    modelled. *)
Definition crm_lead_updated (now : Z) (Lead_Status : option string)
    (Annual_Revenue : option Q) (lead : Lead.t) : Lead.t :=
  let updates :=
    (if Js.truthy Lead_Status then
       [Lead.status_is
          match status_of (Js.key Lead_Status) statusMap with
          | Some st => st
          | None => Lead.status lead
          end]
     else [])
    ++ match Annual_Revenue with
       | Some revenue =>
           if Qeq_bool revenue 0 then []
           else [Lead.estimated_value_is (Js.number revenue)]
       | None => []
       end in
  match updates with
  | [] => lead
  | _ => Lead.update now updates lead
  end.

End Webhooks.

(* ================================================================== *)
(** * Webhook authentication                                           *)
(* ================================================================== *)

Module Auth.

(** The headers the middleware reads. *)
Record headers : Type := mkHeaders {
  x_webhook_signature : option string;
  signature : option string;
  x_timestamp : option string;
  timestamp : option string
}.

(** [a || b] on two headers. *)
Definition or_header (a b : option string) : option string :=
  if Js.truthy a then a else if Js.truthy b then b else None.

Inductive outcome : Type :=
| next
| rejected (code : string)
| thrown.

(** [Math.abs(now - requestTime) > 300]; with NaN the test is false. *)
Definition stale (now_seconds : Z) (requestTime : option Q) : bool :=
  match requestTime with
  | Some t => negb (Qle_bool (Qabs (inject_Z now_seconds - t)) 300)
  | None => false
  end.

(** [validateWebhookSignature(expectedSource)].  [development] tells
    whether [NODE_ENV] is development, [secret] is the secret configured
    for the source, [hmac secret text] the hexadecimal SHA-256 HMAC of the
    text, [body] the serialised request body and [now] the time in
    milliseconds.  [crypto.timingSafeEqual] throws on inputs of different
    lengths; the timestamp is read in radix 10. *)
Definition validateWebhookSignature (hmac : string -> string -> string)
    (development : bool) (secret : option string) (now : Z) (h : headers)
    (body : string) : outcome :=
  if development then next
  else
    match or_header (x_webhook_signature h) (signature h),
          or_header (x_timestamp h) (timestamp h) with
    | Some sig, Some ts =>
        let now_seconds := now / 1000 in
        let requestTime := Js.parseInt ts in
        if stale now_seconds requestTime
        then rejected "WEBHOOK_TIMESTAMP_INVALID"
        else if negb (Js.truthy secret) then next
        else
          let expectedSignature := hmac (Js.key secret) (ts ++ body)%string in
          let providedSignature := Js.remove_first_string "sha256=" sig in
          if negb (String.length expectedSignature
                   =? String.length providedSignature)%nat
          then thrown
          else if String.eqb expectedSignature providedSignature then next
          else rejected "WEBHOOK_SIGNATURE_INVALID"
    | _, _ => rejected "MISSING_WEBHOOK_AUTH"
    end.

End Auth.

(* ================================================================== *)
(** * Response-time alerts                                             *)
(* ================================================================== *)

Module Notification.

(** A row of [notifications]; [title] and [message], which the two
    alerts never leave empty, are left out. *)
Record t : Type := mk {
  lead_id : Z;
  notification_type : string;
  priority : Z;
  send_email : bool;
  send_slack : bool;
  action_required : bool;
  action_url : option string;
  expires_at : option Z;
  sent : bool
}.

(** The validators of the model on these attributes: [isIn] on the type,
    [min] and [max] on the priority, [isUrl] on [action_url] (a null is
    not validated).  [isUrl] is the validator of the library. *)
Definition validate (isUrl : string -> bool) (n : t) : bool :=
  existsb (String.eqb (notification_type n))
    ["high_value_lead"; "response_needed"; "conversion_opportunity";
     "system_alert"]
  && (1 <=? priority n) && (priority n <=? 5)
  && match action_url n with
     | Some url => isUrl url
     | None => true
     end.

(** [Notification.create(values)]: the row is validated, then
    inserted; [None]: the validation error is thrown. *)
Definition create (isUrl : string -> bool) (values : t) (rows : list t)
    : option (t * list t) :=
  if validate isUrl values then Some (values, rows ++ [values]) else None.

(** The [action_url] both alerts pass: [`/leads/${lead.id}`]. *)
Definition action_url_of (lead : Lead.t) : string :=
  ("/leads/" ++ Js.toString (Lead.id lead))%string.

(** [Notification.createResponseNeededAlert]. *)
Definition createResponseNeededAlert (isUrl : string -> bool) (now : Z)
    (lead : Lead.t) (rows : list t) : option (t * list t) :=
  create isUrl
    (mk (Lead.id lead) "response_needed" 4 true true true
        (Some (action_url_of lead)) (Some (now + 30 * 60 * 1000)) false)
    rows.

(** [markSent], on the row created last. *)
Definition markSent (n : t) : t :=
  mk (lead_id n) (notification_type n) (priority n) (send_email n)
     (send_slack n) (action_required n) (action_url n) (expires_at n) true.

Inductive urgency : Type := critical | high.

(** What the job returns; with [lead_not_found], [create_failed] and
    [slack_failed] it throws. *)
Inductive result : Type :=
| lead_not_found
| skipped
| create_failed
| slack_failed
| alerted (u : urgency).

(** [processResponseTimeAlert]; [slackOk] tells whether
    [slackService.sendUrgentAlert] returns or throws. *)
Definition processResponseTimeAlert (isUrl : string -> bool) (now : Z)
    (leadId minutesElapsed : Z) (slackOk : bool) (leads : list Lead.t)
    (rows : list t) : result * list t :=
  match find (fun l => Lead.id l =? leadId) leads with
  | None => (lead_not_found, rows)
  | Some lead =>
      if negb (Lead.Status_eqb (Lead.status lead) Lead.new)
      then (skipped, rows)
      else
        match createResponseNeededAlert isUrl now lead rows with
        | None => (create_failed, rows)
        | Some (notification, rows1) =>
            if slackOk
            then (alerted (if 10 <=? minutesElapsed then critical else high),
                  rows ++ [markSent notification])
            else (slack_failed, rows1)
        end
  end.

(** The escalation notifications of a lead. *)
Definition alerts_of (leadId : Z) (rows : list t) : list t :=
  filter (fun n => (lead_id n =? leadId)
                   && String.eqb (notification_type n) "response_needed")
         rows.

(** The alert jobs of a lead processed in turn, one job for each scan
    that found the lead waiting, each with the [minutesElapsed] it
    carries. *)
Definition process_alerts (isUrl : string -> bool) (now : Z) (leadId : Z)
    (minutes : list Z) (leads : list Lead.t) (rows : list t) : list t :=
  fold_left
    (fun rows m =>
       snd (processResponseTimeAlert isUrl now leadId m true leads rows))
    minutes rows.

End Notification.

(* ================================================================== *)
(** * The job queues                                                   *)
(* ================================================================== *)

Module Queues.

(** The options of a job. *)
Record JobOptions : Type := mkOptions {
  priority : Z;
  delay : Z;
  attempts : Z;
  backoff_delay : Z;
  removeOnComplete : nat;
  removeOnFail : nat
}.

(** [defaultJobOptions] of [initializeQueues]: three attempts,
    exponential backoff from 2000 ms, the last 50 completed and the last
    20 failed jobs kept. *)
Definition defaultJobOptions : JobOptions := mkOptions 0 0 3 2000 50 20.

(** The options of [addInstantEmailJob] and [addIntegrationSync], over the
    defaults. *)
Definition instantEmailOptions : JobOptions := mkOptions 1 0 5 2000 100 20.
Definition integrationSyncOptions : JobOptions := mkOptions 8 0 3 5000 50 20.

Record Job : Type := mkJob {
  job_id : Z;
  name : string;
  opts : JobOptions;
  attemptsMade : Z
}.

(** The sets of a queue, most recent job first.  A job waiting for its
    retry sits in [delayed], with the delay it was given. *)
Record Queue : Type := mkQueue {
  waiting : list Job;
  delayed : list (Job * Z);
  active : list Job;
  completed : list Job;
  failed : list Job
}.

Definition empty : Queue := mkQueue [] [] [] [] [].

Definition without (j : Job) (l : list Job) : list Job :=
  filter (fun k => negb (job_id k =? job_id j)) l.

(** Modelled from the spec: the life of a job in the dispatcher, which the
    queue library behind [new Bull(...)] runs and which is not among the
    sources.  [add] enqueues the job (waiting), [start] hands it to a
    worker (active), [fail] is the retry decision, [promote] ends the
    delay of a retry (waiting again). *)
Definition add (j : Job) (q : Queue) : Queue :=
  mkQueue (j :: waiting q) (delayed q) (active q) (completed q) (failed q).

(** Modelled from the spec: a worker takes the job. *)
Definition start (j : Job) (q : Queue) : Queue :=
  mkQueue (without j (waiting q)) (delayed q) (j :: active q) (completed q)
          (failed q).

(** Modelled from the spec: the retry decision of the dispatcher.  On a
    handler failure [attemptsMade] goes up by one; with attempts left the
    job is scheduled again after [backoff_delay * 2 ^ attemptsMade];
    otherwise it is recorded in the failed set.  The failed set keeps the
    [removeOnFail] most recent jobs, the option [initializeQueues]
    passes. *)
Definition fail (j : Job) (q : Queue) : Queue :=
  let j' := mkJob (job_id j) (name j) (opts j) (attemptsMade j + 1) in
  if attemptsMade j' <? attempts (opts j) then
    mkQueue (waiting q)
            ((j', backoff_delay (opts j) * 2 ^ attemptsMade j') :: delayed q)
            (without j (active q)) (completed q) (failed q)
  else
    mkQueue (waiting q) (delayed q) (without j (active q)) (completed q)
            (firstn (removeOnFail (opts j)) (j' :: failed q)).

(** Modelled from the spec: the delay of a job is over, it waits for a
    worker again. *)
Definition promote (j : Job) (q : Queue) : Queue :=
  mkQueue (j :: waiting q)
          (filter (fun e => negb (job_id (fst e) =? job_id j)) (delayed q))
          (active q) (completed q) (failed q).

(** Modelled from the spec: a job whose handler fails on every attempt,
    run to its end; the result is the queue it leaves and the delays it
    was given, first retry first.  [fuel] bounds the number of attempts
    looked at. *)
Fixpoint run_failing (fuel : nat) (j : Job) (q : Queue)
    : option (Queue * list Z) :=
  match fuel with
  | O => None
  | S fuel' =>
      let q1 := fail j (start j q) in
      let j' := mkJob (job_id j) (name j) (opts j) (attemptsMade j + 1) in
      if attemptsMade j' <? attempts (opts j) then
        match run_failing fuel' j' (promote j' q1) with
        | Some (q', delays) =>
            Some (q', backoff_delay (opts j) * 2 ^ attemptsMade j' :: delays)
        | None => None
        end
      else Some (q1, [])
  end.

(** The delays a job that keeps failing is given after [made] failed
    attempts: [backoff_delay * 2 ^ k] for [k] from [made + 1] up to one
    less than the number of attempts. *)
Definition retry_delays (o : JobOptions) (made : Z) : list Z :=
  map (fun k => backoff_delay o * 2 ^ (made + Z.of_nat k))
      (seq 1 (Z.to_nat (attempts o - made - 1))).

(** The job as it stands after its last attempt. *)
Definition exhausted (j : Job) : Job :=
  mkJob (job_id j) (name j) (opts j) (attempts (opts j)).

(** The counts [getQueueStats] returns for one queue. *)
Record Stats : Type := mkStats {
  stat_waiting : nat;
  stat_active : nat;
  stat_completed : nat;
  stat_failed : nat;
  stat_total : nat
}.

(** [getQueueStats], for one queue. *)
Definition getQueueStats (q : Queue) : Stats :=
  let w := List.length (waiting q) in
  let a := List.length (active q) in
  let c := List.length (completed q) in
  let f := List.length (failed q) in
  mkStats w a c f (w + a + c + f)%nat.

(** The job is in one of the four sets the statistics count. *)
Definition counted (jobId : Z) (q : Queue) : bool :=
  existsb (fun k => job_id k =? jobId)
          (waiting q ++ active q ++ completed q ++ failed q).

(** Jobs [first], [first+1], ... added one after the other, each failing
    on every attempt. *)
Fixpoint fail_all (n : nat) (first : Z) (o : JobOptions) (q : Queue)
    : option Queue :=
  match n with
  | O => Some q
  | S n' =>
      let j := mkJob first "job" o 0 in
      match run_failing (S (Z.to_nat (attempts o))) j (add j q) with
      | Some (q', _) => fail_all n' (first + 1) o q'
      | None => None
      end
  end.

End Queues.

(* ================================================================== *)
(** * Business hours                                                   *)
(* ================================================================== *)

Module BusinessHours.

(** The clock: [clock k] is what the [k]-th [new Date()] of a run
    returns. *)
Definition clock : Type := nat -> Z.

(** The body of [isBusinessHours], on the date its [new Date()] gave.
    The function takes no parameter: an argument passed to it is
    ignored. *)
Definition isBusinessHours (now : Z) : bool :=
  let hour := Js.getHours now in
  let dayOfWeek := Js.getDay now in
  let isWeekend := (dayOfWeek =? 0) || (dayOfWeek =? 6) in
  let minHour := if isWeekend then 8 else 6 in
  let maxHour := if isWeekend then 20 else 22 in
  (minHour <=? hour) && (hour <? maxHour).

(** [next.setHours(next.getHours() + 1, 0, 0, 0)]. *)
Definition next_full_hour (d : Z) : Z :=
  (d / Js.ms_per_hour) * Js.ms_per_hour + Js.ms_per_hour.

(** The [while] loop of [getNextBusinessHour]: each test calls
    [isBusinessHours(next)], which reads the clock.  The result is the
    date returned and the number of clock readings made so far. *)
Fixpoint next_loop (fuel : nat) (c : clock) (k : nat) (next : Z)
    : option (Z * nat) :=
  match fuel with
  | O => None
  | S fuel' =>
      if negb (isBusinessHours (c k))
      then next_loop fuel' c (S k) (next + Js.ms_per_hour)
      else Some (next, S k)
  end.

(** [getNextBusinessHour], the clock having been read [k] times so far;
    [None]: the loop is still running when the fuel is used up. *)
Definition getNextBusinessHour (fuel : nat) (c : clock) (k : nat)
    : option (Z * nat) :=
  let now := c k in
  let next := next_full_hour now in
  next_loop fuel c (S k) next.

Inductive follow_up : Type :=
| send
| rescheduled (delaySeconds : Z).

(** The business-hours gate of [processFollowUp] for a template with
    [business_hours_only]. *)
Definition processFollowUp_gate (fuel : nat) (c : clock) : option follow_up :=
  if negb (isBusinessHours (c 0%nat)) then
    match getNextBusinessHour fuel c 1 with
    | Some (nextBusinessTime, k) =>
        let delay := nextBusinessTime - c k in
        Some (rescheduled (delay / 1000))
    | None => None
    end
  else Some send.

(** A clock that does not move while the loop runs. *)
Definition frozen (t : Z) : clock := fun _ => t.

End BusinessHours.

(* ================================================================== *)
(** * Users                                                            *)
(* ================================================================== *)

Module User.

(** A row of [users], as far as the lock and the notifications go;
    [notification_preferences] is the JSON object, its keys in the order
    they are stored, or null. *)
Record t : Type := mk {
  id : Z;
  active : bool;
  phone : option string;
  notification_preferences : option (list (string * bool));
  failed_login_attempts : Z;
  locked_until : option Z;
  last_login : option Z
}.

(** [recordLogin]. *)
Definition recordLogin (now : Z) (this : t) : t :=
  mk (id this) (active this) (phone this) (notification_preferences this)
     0 None (Some now).

(** [recordFailedLogin]. *)
Definition recordFailedLogin (now : Z) (this : t) : t :=
  let attempts := failed_login_attempts this + 1 in
  mk (id this) (active this) (phone this) (notification_preferences this)
     attempts
     (if 5 <=? attempts then Some (now + 30 * 60 * 1000)
      else locked_until this)
     (last_login this).

(** [isLocked], as a test. *)
Definition isLocked (now : Z) (this : t) : bool :=
  match locked_until this with
  | Some d => now <? d
  | None => false
  end.

(** [unlock]. *)
Definition unlock (this : t) : t :=
  mk (id this) (active this) (phone this) (notification_preferences this)
     0 None (last_login this).

(** [prefs[k] === true]. *)
Fixpoint pref (k : string) (prefs : list (string * bool)) : bool :=
  match prefs with
  | (k', v) :: rest => if String.eqb k k' then v else pref k rest
  | [] => false
  end.

(** [shouldReceiveNotification(notificationType)]. *)
Definition shouldReceiveNotification (notificationType : string) (this : t)
    : bool :=
  match notification_preferences this with
  | Some prefs => pref notificationType prefs
  | None => false
  end.

(** Failed logins one after the other, at the given times. *)
Definition fail_all (times : list Z) (this : t) : t :=
  fold_left (fun u now => recordFailedLogin now u) times this.

End User.

(* ================================================================== *)
(** * High-value lead alerts                                           *)
(* ================================================================== *)

Module HighValueAlert.

(** [Notification.createHighValueLeadAlert]. *)
Definition createHighValueLeadAlert (isUrl : string -> bool) (now : Z)
    (lead : Lead.t) (rows : list Notification.t)
    : option (Notification.t * list Notification.t) :=
  Notification.create isUrl
    (Notification.mk (Lead.id lead) "high_value_lead" 5 true true true
       (Some (Notification.action_url_of lead))
       (Some (now + 60 * 60 * 1000)) false)
    rows.

(** The counters of one channel. *)
Record channel : Type := mkChannel { sent : Z; failed : Z }.

Record results : Type := mkResults {
  recipients : Z;
  email : channel;
  slack : channel;
  sms : channel
}.

(** What the job does: it throws because the lead is not found or
    because the notification is refused, or it returns its results. *)
Inductive outcome : Type :=
| lead_not_found
| create_failed
| done (r : results).

(** One delivery inside its [try]: [ok] tells whether the service
    returns or throws. *)
Definition deliver (ok : bool) (c : channel) : channel :=
  if ok then mkChannel (sent c + 1) (failed c)
  else mkChannel (sent c) (failed c + 1).

(** [processHighValueAlert]; [emailOk], [slackOk] and [smsOk] tell
    which deliveries go through. *)
Definition processHighValueAlert (isUrl : string -> bool) (now : Z)
    (leadId : Z) (emailOk : User.t -> bool) (slackOk : bool)
    (smsOk : User.t -> bool) (leads : list Lead.t) (users : list User.t)
    (rows : list Notification.t) : outcome * list Notification.t :=
  match find (fun l => Lead.id l =? leadId) leads with
  | None => (lead_not_found, rows)
  | Some lead =>
      match createHighValueLeadAlert isUrl now lead rows with
      | None => (create_failed, rows)
      | Some (notification, _) =>
          let recipients :=
            filter (fun u =>
                      User.active u
                      && User.shouldReceiveNotification "high_value_leads" u)
                   users in
          let email :=
            if Notification.send_email notification then
              fold_left
                (fun c user =>
                   if User.shouldReceiveNotification "email" user
                   then deliver (emailOk user) c else c)
                recipients (mkChannel 0 0)
            else mkChannel 0 0 in
          let slack :=
            if Notification.send_slack notification
            then deliver slackOk (mkChannel 0 0) else mkChannel 0 0 in
          let sms :=
            if Js.ge (Lead.estimated_value lead) 2000
               || (90 <=? Lead.lead_score lead)
            then
              let smsRecipients :=
                filter (fun user => User.shouldReceiveNotification "sms" user
                                    && Js.truthy (User.phone user))
                       recipients in
              fold_left (fun c user => deliver (smsOk user) c) smsRecipients
                (mkChannel 0 0)
            else mkChannel 0 0 in
          (done (mkResults (Z.of_nat (List.length recipients)) email slack
                   sms),
           rows ++ [Notification.markSent notification])
      end
  end.

End HighValueAlert.

(* ================================================================== *)
(** * Phone numbers of the SMS service                                 *)
(* ================================================================== *)

Module SmsService.

(** [phoneNumber.replace(/\D/g, '')]: the digits of the number. *)
Fixpoint cleaned (s : string) : string :=
  match s with
  | String c r => if Js.is_digit c then String c (cleaned r) else cleaned r
  | EmptyString => EmptyString
  end.

(** [formatPhoneNumber]. *)
Definition formatPhoneNumber (phoneNumber : string) : string :=
  let cleaned := cleaned phoneNumber in
  if (String.length cleaned =? 10)%nat then ("+1" ++ cleaned)%string
  else if (String.length cleaned =? 11)%nat && Js.startsWith "1" cleaned
  then ("+" ++ cleaned)%string
  else phoneNumber.

(** [s.slice(-n)]. *)
Definition slice_last (n : nat) (s : string) : string :=
  substring (String.length s - n) n s.

(** [maskPhoneNumber]. *)
Definition maskPhoneNumber (phoneNumber : string) : string :=
  let cleaned := cleaned phoneNumber in
  if (10 <=? String.length cleaned)%nat
  then ("***-***-" ++ slice_last 4 cleaned)%string
  else "***-***-****".

(** [isValidPhoneNumber]. *)
Definition isValidPhoneNumber (phoneNumber : string) : bool :=
  let cleaned := cleaned phoneNumber in
  (10 <=? String.length cleaned)%nat && (String.length cleaned <=? 15)%nat.

End SmsService.

(* ================================================================== *)
(** * Rescheduling a follow-up                                         *)
(* ================================================================== *)

Module FollowUp.

(** The message of the error [processFollowUp] throws to reschedule,
    [delay] being the milliseconds to the next business hour. *)
Definition reschedule (delay : Z) : string :=
  ("RESCHEDULE:" ++ Js.toString (delay / 1000))%string.

(** The [catch] of [processFollowUp]: [Some delaySeconds] when the error
    is taken for a reschedule request ([None] inside is NaN), [None]
    when it is thrown again. *)
Definition caught (message : string) : option (option Q) :=
  if Js.startsWith "RESCHEDULE:" message then
    Some match nth_error (Js.split ":" message) 1 with
         | Some part => Js.parseInt part
         | None => None
         end
  else None.

End FollowUp.

(* ================================================================== *)
(** * Sample data                                                      *)
(* ================================================================== *)

Module Sample.

(** Friday 2023-11-17 09:00, a working hour. *)
Definition friday_9h : Z := 1700211600000.

(** A corporate lead: 1500 of estimated value, 6 passengers, 10 miles
    from the base. *)
Definition acme : Lead.t :=
  Lead.mk 1 (Some "Acme Corp") "Ann Lee" (Some "ann@acme.example")
    (Some "+18045550100") None "corporate" (Some (friday_9h + 12 * Js.ms_per_hour))
    None None (Js.number 6) (Js.number 1500) None Js.undefined
    0 Lead.new 3 (Js.number 10) None None friday_9h.

(** The default factors without the urgency factor. *)
Definition initial_factors : list ScoringFactor.t :=
  removelast ScoringFactor.defaultFactors.

(** Saturday 2023-11-18 03:00, outside business hours, and Friday
    21:30, half an hour before closing. *)
Definition saturday_3h : Z := friday_9h + 18 * Js.ms_per_hour.
Definition friday_21h30 : Z := friday_9h + 12 * Js.ms_per_hour + 1800000.

(** A form submission of that lead, and validators that ask for a company
    name. *)
Definition submission : Webhooks.body :=
  Webhooks.mkBody (Some "Acme Corp") "Ann Lee" "ann@acme.example"
    (Some "+18045550100") None "corporate" None None None
    (Js.number 6) (Js.number 1500) None.

Definition validators (l : Lead.t) : bool := Js.non_empty (Lead.company_name l).


(** A stand-in for the [isUrl] validator that asks for a host only: the
    text before the first slash is not empty. *)
Definition has_host (url : string) : bool :=
  match url with
  | EmptyString => false
  | String "/"%char _ => false
  | String _ _ => true
  end.


(** The standard follow-up sequence of that lead, as created, and after
    three steps. *)
Definition follow_up : EmailSequence.t :=
  fst (EmailSequence.createStandardSequence friday_9h 1 "standard_follow_up"
         []).

Definition follow_up_last : EmailSequence.t :=
  EmailSequence.advance_all [friday_9h; friday_9h; friday_9h] follow_up.

End Sample.

(* ================================================================== *)
(** * More sample data                                                 *)
(* ================================================================== *)

Module Cases.

(** The value tiers among the default factors. *)
Definition value_tier : ScoringFactor.t :=
  ScoringFactor.mk "estimated_value_tier" "service" 30 "range"
    (Some [("1000+", 30); ("500-999", 20); ("100-499", 10); ("0-99", 5)])
    true.

(** A webhook log as [createFromRequest] writes it. *)
Definition fresh_log : Webhooks.WebhookLog :=
  Webhooks.createFromRequest "website_form" "form_submission".

(** Validators that refuse every lead. *)
Definition refuse_all (l : Lead.t) : bool := false.

(** The payload of a form that was stored with the webhook. *)
Definition stored : Webhooks.payload :=
  Webhooks.mkPayload (Some "Acme") None (Some "Ann") (Some "ann@acme.test")
    None None None (Some "Richmond") None (Js.number 1500).

(** A stand-in for the HMAC, and the headers of a request signed with
    it. *)
Definition toy_hmac (secret text : string) : string := (secret ++ text)%string.

Definition signed_headers : Auth.headers :=
  Auth.mkHeaders (Some "sha256=k1700211600{}") None (Some "1700211600") None.

(** A user as the table creates it, with the default preferences. *)
Definition dispatcher : User.t :=
  User.mk 7 true (Some "(804) 555-0100")
    (Some [("email", true); ("sms", false); ("slack", false);
           ("high_value_leads", true); ("response_time_alerts", true)])
    0 None None.

End Cases.

(* ================================================================== *)
(** * Properties of the scoring functions                              *)
(* ================================================================== *)

(** Case analysis on every test of the goal. *)
Ltac split_tests :=
  repeat match goal with
         | |- context [if ?b then _ else _] => destruct b
         | |- context [match ?o with Some _ => _ | None => _ end] =>
             destruct o
         end.

Section Scoring.

Import ScoringFactor.

Lemma Qeq_bool_same (q : Q) : Qeq_bool q q = true.
Proof. apply Qeq_bool_iff. reflexivity. Qed.

Lemma num_eqb_same (v : Js.num) : Js.num_eqb v v = true.
Proof. destruct v; simpl; auto using Qeq_bool_same. Qed.





Lemma totalScore_from (now : Z) (lead : Lead.t) (fs : list t) (acc : Z) :
  fold_left (fun total factor => total + calculateScore now factor lead) fs acc
  = acc + totalScore now fs lead.
Proof.
  unfold totalScore. revert acc.
  induction fs as [| f fs IH]; intros acc; simpl; [lia |].
  rewrite IH, (IH (calculateScore now f lead)). lia.
Qed.

Lemma totalScore_cons (now : Z) (lead : Lead.t) (f : t) (fs : list t) :
  totalScore now (f :: fs) lead
  = calculateScore now f lead + totalScore now fs lead.
Proof. unfold totalScore at 1. simpl. now rewrite totalScore_from. Qed.




End Scoring.

Section ScoringClaims.

Import ScoringFactor.







(** C8.  A lead with a company name, an estimated value of 1500, service
    type corporate, 6 passengers and 10 miles from the base scores
    10 + 30 + 25 + 15 + 10 = 90, and its priority level on creation
    is 5. *)
Theorem corporate_scenario_scores_90 :
  forall l : Lead.t,
    Js.non_empty (Lead.company_name l) = true ->
    Lead.estimated_value l = Js.number 1500 ->
    Lead.service_type l = "corporate" ->
    Lead.passenger_count l = Js.number 6 ->
    Lead.distance_from_base l = Js.number 10 ->
    Lead.calculateScore l = 10 + 30 + 25 + 15 + 10
    /\ Lead.lead_score (Lead.create l) = 90
    /\ Lead.priority_level (Lead.create l) = 5.
Proof.
  intros l Hc Hv Hs Hp Hd.
  assert (Hscore : Lead.calculateScore l = 90).
  { unfold Lead.calculateScore. rewrite Hc, Hv, Hs, Hp, Hd. reflexivity. }
  repeat split.
  - exact Hscore.
  - exact Hscore.
  - unfold Lead.create, Lead.beforeCreate, Lead.updatePriority. simpl.
    now rewrite Hscore.
Qed.

Lemma corporate_scenario_scores_90_witness :
  Lead.calculateScore Sample.acme = 10 + 30 + 25 + 15 + 10
  /\ Lead.lead_score (Lead.create Sample.acme) = 90
  /\ Lead.priority_level (Lead.create Sample.acme) = 5.
Proof.
  apply (corporate_scenario_scores_90 Sample.acme); reflexivity.
Defined.

(** The default factors without the urgency factor give the lead of the
    scenario the same 90, whatever the time. *)
Lemma corporate_scenario_with_factors (now : Z) :
  calculateLeadScore now Sample.initial_factors Sample.acme = 90.
Proof. reflexivity. Qed.

(** The attributes the hook and the score read are untouched by an update
    of other keys. *)
Lemma set_frame (values : list Lead.assignment) (l : Lead.t) :
  forallb (fun a => negb (Lead.scoring_key a)) values = true ->
  Lead.estimated_value (Lead.set values l) = Lead.estimated_value l
  /\ Lead.service_type (Lead.set values l) = Lead.service_type l
  /\ Lead.passenger_count (Lead.set values l) = Lead.passenger_count l
  /\ Lead.distance_from_base (Lead.set values l) = Lead.distance_from_base l
  /\ Lead.company_name (Lead.set values l) = Lead.company_name l
  /\ Lead.lead_score (Lead.set values l) = Lead.lead_score l.
Proof.
  unfold Lead.set. revert l.
  induction values as [| a values IH]; intros l Hk; simpl.
  - repeat split.
  - simpl in Hk. apply andb_prop in Hk as [Ha Hrest].
    destruct (IH (Lead.assign l a) Hrest) as (H1 & H2 & H3 & H4 & H5 & H6).
    rewrite H1, H2, H3, H4, H5, H6.
    destruct a; simpl in Ha; try discriminate; repeat split.
Qed.

(** C9.  An update that writes only attributes the score is not computed
    from (and not the stored score itself) leaves the stored score as it
    was. *)
Theorem non_scoring_update_keeps_score :
  forall (now : Z) (values : list Lead.assignment) (l : Lead.t),
    forallb (fun a => negb (Lead.scoring_key a)) values = true ->
    Lead.lead_score (Lead.update now values l) = Lead.lead_score l.
Proof.
  intros now values l Hk.
  destruct (set_frame values l Hk) as (H1 & H2 & H3 & H4 & _ & H6).
  unfold Lead.update, Lead.beforeUpdate, Lead.scoring_changed.
  rewrite H1, H2, H3, H4, !num_eqb_same, String.eqb_refl. simpl.
  match goal with |- context [if ?b then _ else _] => destruct b end;
    simpl; exact H6.
Qed.

Lemma non_scoring_update_keeps_score_witness :
  Lead.lead_score
    (Lead.update Sample.friday_9h
       [Lead.status_is Lead.converted; Lead.notes_is "called back";
        Lead.phone_is (Some "+18045550111")]
       (Lead.create Sample.acme))
  = Lead.lead_score (Lead.create Sample.acme).
Proof.
  apply (non_scoring_update_keeps_score Sample.friday_9h
           [Lead.status_is Lead.converted; Lead.notes_is "called back";
            Lead.phone_is (Some "+18045550111")]
           (Lead.create Sample.acme)).
  reflexivity.
Defined.

End ScoringClaims.

(* ================================================================== *)
(** * Properties of the follow-up sequences                            *)
(* ================================================================== *)

Section Sequences.

Import EmailSequence.

Lemma timing_length (s : t) : List.length (timingMinutes s) = 4%nat.
Proof.
  unfold timingMinutes, sequences, standard_timing. simpl.
  split_tests; reflexivity.
Qed.

Lemma steps_configured (sequenceType : string) :
  table_or sequenceType sequenceConfig 4 = 4.
Proof.
  unfold sequenceConfig. simpl.
  split_tests; reflexivity.
Qed.

(** [calculateNextSendTime] writes [next_send_at] and nothing else. *)
Lemma calculateNextSendTime_frame (now : Z) (s : t) :
  let s' := calculateNextSendTime now s in
  id s' = id s /\ lead_id s' = lead_id s /\ active s' = active s
  /\ current_step s' = current_step s /\ total_steps s' = total_steps s
  /\ completed_at s' = completed_at s
  /\ sequence_name s' = sequence_name s.
Proof.
  unfold calculateNextSendTime.
  destruct (current_step s <=? Z.of_nat (List.length (timingMinutes s)));
    simpl; repeat split.
Qed.

Lemma advance_frame (now : Z) (s : t) :
  let s' := advance now s in
  id s' = id s /\ lead_id s' = lead_id s /\ total_steps s' = total_steps s
  /\ (active s' = true -> active s = true).
Proof.
  unfold advance. destruct (current_step s <? total_steps s).
  - destruct (calculateNextSendTime_frame now
                (set_current_step (current_step s + 1) s))
      as (H1 & H2 & H3 & _ & H5 & _).
    simpl in *. rewrite H1, H2, H3, H5. repeat split. auto.
  - simpl. repeat split. discriminate.
Qed.

Lemma advance_keeps_bound (now : Z) (s : t) :
  current_step s <= total_steps s ->
  current_step (advance now s) <= total_steps (advance now s).
Proof.
  intros Hle. unfold advance.
  destruct (current_step s <? total_steps s) eqn:Hlt.
  - apply Z.ltb_lt in Hlt.
    destruct (calculateNextSendTime_frame now
                (set_current_step (current_step s + 1) s))
      as (_ & _ & _ & H4 & H5 & _).
    simpl in *. rewrite H4, H5. lia.
  - simpl. exact Hle.
Qed.

Lemma advance_all_keeps_bound (times : list Z) (s : t) :
  current_step s <= total_steps s ->
  current_step (advance_all times s) <= total_steps (advance_all times s).
Proof.
  unfold advance_all. revert s.
  induction times as [| now times IH]; intros s Hle; simpl; [exact Hle |].
  apply IH, advance_keeps_bound, Hle.
Qed.

(** C4.  [current_step] never exceeds [total_steps]: a sequence is
    created at step 1 of 4, and [advance] keeps the bound, however often
    it is called.  Below the last step [advance] adds exactly 1 to
    [current_step] and sets the next send time from the timing table of
    the sequence; at the last step it completes the sequence ([active]
    cleared, [completed_at] set, [next_send_at] cleared) and leaves
    [current_step] where it is. *)
Theorem advance_never_passes_total_steps :
  forall (now : Z) (s : t),
    (* the bound, for a new sequence and for any sequence *)
    (forall created leadId sequenceType rows times,
        let fresh :=
          fst (createStandardSequence created leadId sequenceType rows) in
        current_step (advance_all times fresh)
        <= total_steps (advance_all times fresh))
    /\ (current_step s <= total_steps s ->
        current_step (advance now s) <= total_steps (advance now s))
    (* below the last step *)
    /\ (current_step s < total_steps s ->
        current_step (advance now s) = current_step s + 1
        /\ active (advance now s) = active s
        /\ completed_at (advance now s) = completed_at s
        /\ advance now s
           = calculateNextSendTime now
               (set_current_step (current_step s + 1) s)
        /\ (1 <= current_step s -> total_steps s <= 4 ->
            next_send_at (advance now s)
            = Some (now
                    + nth (Z.to_nat (current_step s)) (timingMinutes s) 0
                      * 60 * 1000)))
    (* at the last step *)
    /\ (current_step s = total_steps s ->
        current_step (advance now s) = current_step s
        /\ active (advance now s) = false
        /\ completed_at (advance now s) = Some now
        /\ next_send_at (advance now s) = None).
Proof.
  intros now s. repeat apply conj.
  - intros created leadId sequenceType rows times fresh.
    apply advance_all_keeps_bound. subst fresh.
    unfold createStandardSequence. rewrite steps_configured.
    cbn [fst].
    destruct (calculateNextSendTime_frame created
                (mk (fresh_id rows) leadId sequenceType 1 4 None None true
                    None 0 0 0)) as (_ & _ & _ & H4 & H5 & _).
    rewrite H4, H5. cbn [current_step total_steps]. lia.
  - apply advance_keeps_bound.
  - intros Hlt. unfold advance.
    pose proof Hlt as Hb. apply Z.ltb_lt in Hb. rewrite Hb.
    destruct (calculateNextSendTime_frame now
                (set_current_step (current_step s + 1) s))
      as (_ & _ & H3 & H4 & _ & H6 & _).
    simpl in *. rewrite H3, H4, H6. repeat split.
    intros H1 Hmax.
    unfold calculateNextSendTime, index.
    change (timingMinutes (set_current_step (current_step s + 1) s))
      with (timingMinutes s).
    rewrite timing_length. simpl current_step.
    replace (current_step s + 1 <=? Z.of_nat 4) with true
      by (symmetry; apply Z.leb_le; simpl; lia).
    replace (current_step s + 1 - 1 <? 0) with false
      by (symmetry; apply Z.ltb_ge; lia).
    replace (current_step s + 1 - 1) with (current_step s) by lia.
    simpl next_send_at.
    destruct (nth_error (timingMinutes s) (Z.to_nat (current_step s)))
      as [d |] eqn:Hn.
    + now rewrite (nth_error_nth _ _ 0 Hn).
    + apply nth_error_None in Hn. rewrite timing_length in Hn. lia.
  - intros Heq. unfold advance.
    replace (current_step s <? total_steps s) with false
      by (symmetry; apply Z.ltb_ge; lia).
    simpl. repeat split.
Qed.

Lemma advance_never_passes_total_steps_witness :
  (current_step (advance Sample.friday_9h Sample.follow_up) = 2
   /\ next_send_at (advance Sample.friday_9h Sample.follow_up)
      = Some (Sample.friday_9h + 3 * Js.ms_per_day))
  /\ (current_step (advance Sample.friday_9h Sample.follow_up_last) = 4
      /\ active (advance Sample.friday_9h Sample.follow_up_last) = false
      /\ next_send_at (advance Sample.friday_9h Sample.follow_up_last) = None).
Proof.
  split.
  - destruct (advance_never_passes_total_steps Sample.friday_9h
                Sample.follow_up) as (_ & _ & Hbelow & _).
    destruct Hbelow as (Hstep & _ & _ & _ & Hnext); [reflexivity |].
    split; [exact Hstep |].
    rewrite Hnext; [reflexivity | discriminate | discriminate].
  - destruct (advance_never_passes_total_steps Sample.friday_9h
                Sample.follow_up_last) as (_ & _ & _ & Hlast).
    destruct Hlast as (Hstep & Hactive & _ & Hnext); [reflexivity |].
    split; [rewrite Hstep; reflexivity | split; assumption].
Defined.

(** ** One active sequence per lead *)















End Sequences.

(* ================================================================== *)
(** * Properties of the form-submission webhook                        *)
(* ================================================================== *)

Section FormSubmission.

Import Webhooks.

Variable valid : Lead.t -> bool.






Lemma count_email_app (e : string) (a b : list Lead.t) :
  count_email e (a ++ b) = (count_email e a + count_email e b)%nat.
Proof. unfold count_email. now rewrite filter_app, length_app. Qed.

Lemma count_email_none (e : string) (rows : list Lead.t) :
  existsb (same_email e) rows = false -> count_email e rows = 0%nat.
Proof.
  unfold count_email. induction rows as [| l rows IH]; simpl; [reflexivity |].
  intros H. apply orb_false_iff in H as [Hl Hr]. rewrite Hl. auto.
Qed.



End FormSubmission.


(* ================================================================== *)
(** * Properties of the response-time alerts                           *)
(* ================================================================== *)

Section Alerts.

Import Notification.

(** The validator of the library, and what it does with a path: a string
    that starts with a slash has no host and is not taken for a URL. *)
Variable isUrl : string -> bool.
Hypothesis isUrl_needs_host : forall path, isUrl (String "/" path) = false.

(** The notification of the alert is refused. *)
Lemma response_needed_alert_refused (now : Z) (lead : Lead.t)
    (rows : list t) :
  createResponseNeededAlert isUrl now lead rows = None.
Proof.
  unfold createResponseNeededAlert, create, validate.
  cbn [action_url action_url_of append].
  now rewrite isUrl_needs_host, andb_false_r.
Qed.

Lemma alert_job_keeps_rows (now leadId minutes : Z) (slackOk : bool)
    (leads : list Lead.t) (rows : list t) :
  snd (processResponseTimeAlert isUrl now leadId minutes slackOk leads rows)
  = rows.
Proof.
  unfold processResponseTimeAlert.
  destruct (find _ leads) as [lead |]; [| reflexivity].
  destruct (negb _); [reflexivity |].
  now rewrite response_needed_alert_refused.
Qed.

(** C2, a defect of the code.  The alert passes the path [/leads/<id>]
    as [action_url], which the model validates as a URL: the notification
    of a response-time alert is refused every time.  For a lead that is
    still new the job throws and stores nothing, whatever the minutes
    elapsed; no run of scans ever adds an escalation notification. *)
Theorem alert_job_stores_no_notification :
  forall (now leadId : Z) (leads : list Lead.t) (rows : list t)
         (lead : Lead.t),
    find (fun l => Lead.id l =? leadId) leads = Some lead ->
    Lead.status lead = Lead.new ->
    (forall minutes slackOk,
        processResponseTimeAlert isUrl now leadId minutes slackOk leads rows
        = (create_failed, rows))
    /\ (forall scanned : list Z,
           process_alerts isUrl now leadId scanned leads rows = rows
           /\ alerts_of leadId
                (process_alerts isUrl now leadId scanned leads rows)
              = alerts_of leadId rows).
Proof.
  intros now leadId leads rows lead Hfind Hnew.
  assert (Hscans : forall scanned,
             process_alerts isUrl now leadId scanned leads rows = rows).
  { intros scanned. unfold process_alerts.
    induction scanned as [| m scanned IH]; cbn [fold_left]; [reflexivity |].
    now rewrite alert_job_keeps_rows. }
  split.
  - intros minutes slackOk. unfold processResponseTimeAlert.
    rewrite Hfind, Hnew. cbn [Lead.Status_eqb negb].
    now rewrite response_needed_alert_refused.
  - intros scanned. now rewrite Hscans.
Qed.

End Alerts.

Lemma alert_job_stores_no_notification_witness :
  Notification.processResponseTimeAlert Sample.has_host Sample.friday_9h 1 6
    true [Sample.acme] []
  = (Notification.create_failed, [])
  /\ Notification.process_alerts Sample.has_host Sample.friday_9h 1
       [6; 11; 16] [Sample.acme] []
     = [].
Proof.
  destruct (alert_job_stores_no_notification Sample.has_host
              (fun path => eq_refl) Sample.friday_9h 1 [Sample.acme] []
              Sample.acme eq_refl eq_refl) as [Hjob Hscans].
  split.
  - exact (Hjob 6 true).
  - exact (proj1 (Hscans [6; 11; 16])).
Defined.

(* ================================================================== *)
(** * Properties of the job queues                                     *)
(* ================================================================== *)

Section Retries.

Import Queues.

Lemma retry_delays_step (o : JobOptions) (made : Z) :
  0 <= made -> made + 1 < attempts o ->
  retry_delays o made
  = backoff_delay o * 2 ^ (made + 1) :: retry_delays o (made + 1).
Proof.
  intros H0 Hlt. unfold retry_delays.
  replace (Z.to_nat (attempts o - made - 1))
    with (S (Z.to_nat (attempts o - (made + 1) - 1))) by lia.
  cbn [seq map]. f_equal.
  rewrite <- seq_shift, map_map. apply map_ext. intros k.
  do 2 f_equal. lia.
Qed.

Lemma retry_delays_last (o : JobOptions) (made : Z) :
  attempts o <= made + 1 -> retry_delays o made = [].
Proof.
  intros H. unfold retry_delays.
  now replace (Z.to_nat (attempts o - made - 1)) with 0%nat by lia.
Qed.

(** A job that fails on every attempt reaches the failed set, with the
    delays of [retry_delays] between its attempts. *)
Lemma run_failing_ends (fuel : nat) :
  forall (j : Job) (q : Queue),
    0 <= attemptsMade j -> attemptsMade j < attempts (opts j) ->
    (Z.to_nat (attempts (opts j) - attemptsMade j) <= fuel)%nat ->
    exists q',
      run_failing fuel j q = Some (q', retry_delays (opts j) (attemptsMade j))
      /\ failed q'
         = firstn (removeOnFail (opts j)) (exhausted j :: failed q).
Proof.
  induction fuel as [| fuel IH]; intros j q H0 Hlt Hfuel; [lia |].
  cbn [run_failing]. unfold fail. cbn [attemptsMade opts].
  destruct (attemptsMade j + 1 <? attempts (opts j)) eqn:Hmore.
  - apply Z.ltb_lt in Hmore.
    set (j' := mkJob (job_id j) (name j) (opts j) (attemptsMade j + 1)).
    match goal with
    | |- context [run_failing fuel j' ?q1] =>
        destruct (IH j' q1) as (q' & Hrun & Hfailed)
    end; cbn [attemptsMade opts j']; try lia.
    exists q'. rewrite Hrun. split.
    + cbn [opts attemptsMade j'].
      now rewrite (retry_delays_step _ _ H0 Hmore).
    + exact Hfailed.
  - apply Z.ltb_ge in Hmore.
    eexists. split.
    + now rewrite retry_delays_last.
    + cbn [failed start]. unfold exhausted.
      now replace (attempts (opts j)) with (attemptsMade j + 1) by lia.
Qed.

(** C3, as amended.  A job whose handler fails on every attempt is tried
    [attempts] times, with delay [backoff_delay * 2 ^ k] before retry
    [k], and is then recorded in the failed set.  The failed set keeps
    the [removeOnFail] most recent failures, so the job is counted by the
    statistics as long as it is among them. *)
Theorem failing_job_ends_failed :
  forall (o : JobOptions) (jobId : Z) (jobName : string) (q : Queue),
    1 <= attempts o ->
    let j := mkJob jobId jobName o 0 in
    exists q',
      run_failing (Z.to_nat (attempts o)) j (add j q)
      = Some (q', retry_delays o 0)
      /\ List.length (retry_delays o 0) = Z.to_nat (attempts o - 1)
      /\ failed q'
         = firstn (removeOnFail o)
                  (mkJob jobId jobName o (attempts o) :: failed q)
      /\ stat_failed (getQueueStats q')
         = Nat.min (removeOnFail o) (S (List.length (failed q)))
      /\ ((0 < removeOnFail o)%nat -> counted jobId q' = true).
Proof.
  intros o jobId jobName q Hattempts j.
  destruct (run_failing_ends (Z.to_nat (attempts o)) j (add j q))
    as (q' & Hrun & Hfailed); cbn [attemptsMade opts j]; try lia.
  cbn [attemptsMade opts j failed add] in Hrun, Hfailed.
  unfold exhausted in Hfailed. cbn [job_id name opts j] in Hfailed.
  exists q'. repeat apply conj.
  - exact Hrun.
  - unfold retry_delays. rewrite length_map, length_seq. f_equal. lia.
  - exact Hfailed.
  - unfold getQueueStats. cbn [stat_failed]. rewrite Hfailed.
    now rewrite length_firstn.
  - intros Hkeep. unfold counted. rewrite !existsb_app, Hfailed.
    destruct (removeOnFail o) as [| n]; [lia |].
    cbn [firstn existsb job_id]. rewrite Z.eqb_refl.
    now rewrite !orb_true_r.
Qed.

Lemma failing_job_ends_failed_witness :
  exists q',
    run_failing 3 (mkJob 7 "follow_up" defaultJobOptions 0)
      (add (mkJob 7 "follow_up" defaultJobOptions 0) empty)
    = Some (q', [4000; 8000])
    /\ stat_failed (getQueueStats q') = 1%nat
    /\ counted 7 q' = true.
Proof.
  destruct (failing_job_ends_failed defaultJobOptions 7 "follow_up" empty)
    as (q' & Hrun & _ & _ & Hstat & Hcounted).
  - discriminate.
  - exists q'. split; [exact Hrun | split; [exact Hstat |]].
    apply Hcounted. cbv. lia.
Defined.

(** C3 as stated fails: with the default options, once 21 jobs have
    failed for good the first of them is in none of the sets the
    statistics count, and the failed count is 20. *)
Lemma failed_job_leaves_statistics :
  exists q,
    fail_all 21 1 defaultJobOptions empty = Some q
    /\ stat_failed (getQueueStats q) = 20%nat
    /\ stat_total (getQueueStats q) = 20%nat
    /\ delayed q = []
    /\ counted 1 q = false
    /\ counted 2 q = true.
Proof. eexists. vm_compute. repeat split. Qed.

End Retries.

(* ================================================================== *)
(** * Properties of the business-hours helpers                         *)
(* ================================================================== *)

Section Hours.

Import BusinessHours.

Lemma next_loop_closed (c : clock) :
  (forall n, isBusinessHours (c n) = false) ->
  forall fuel k next, next_loop fuel c k next = None.
Proof.
  intros Hclosed. induction fuel as [| fuel IH]; intros k next; simpl.
  - reflexivity.
  - rewrite Hclosed. simpl. apply IH.
Qed.

(** When the loop does return, it returns the date it started from plus
    one hour for each clock reading that fell outside business hours: the
    date returned is never itself tested. *)
Lemma next_loop_returns (c : clock) (n : nat) :
  forall (fuel k : nat) (next : Z),
    (forall i, (i < n)%nat -> isBusinessHours (c (k + i)%nat) = false) ->
    isBusinessHours (c (k + n)%nat) = true ->
    (n < fuel)%nat ->
    next_loop fuel c k next
    = Some (next + Z.of_nat n * Js.ms_per_hour, S (k + n)).
Proof.
  induction n as [| n IH]; intros fuel k next Hclosed Hopen Hfuel;
    (destruct fuel as [| fuel]; [lia |]); simpl.
  - rewrite Nat.add_0_r in *. rewrite Hopen. simpl. do 2 f_equal. lia.
  - pose proof (Hclosed 0%nat ltac:(lia)) as H0.
    rewrite Nat.add_0_r in H0. rewrite H0. simpl.
    rewrite (IH fuel (S k) (next + Js.ms_per_hour)).
    + do 2 f_equal; unfold Js.ms_per_hour; lia.
    + intros i Hi. replace (S k + i)%nat with (k + S i)%nat by lia.
      apply Hclosed. lia.
    + now replace (S k + n)%nat with (k + S n)%nat by lia.
    + lia.
Qed.

(** C10 fails on the code.  The loop of [getNextBusinessHour] tests the
    clock, not the date it moves forward: as long as the clock reads a
    time outside business hours, the loop goes on, whatever the fuel; so
    does the reschedule path of the follow-up processor, which calls it
    exactly then. *)
Theorem getNextBusinessHour_spins_while_closed :
  forall c : clock,
    (forall n, isBusinessHours (c n) = false) ->
    forall fuel k,
      getNextBusinessHour fuel c k = None
      /\ processFollowUp_gate fuel c = None.
Proof.
  intros c Hclosed fuel k. unfold processFollowUp_gate, getNextBusinessHour.
  rewrite Hclosed. simpl. now rewrite !next_loop_closed.
Qed.

Lemma getNextBusinessHour_spins_while_closed_witness :
  getNextBusinessHour 1000 (frozen Sample.saturday_3h) 0 = None
  /\ processFollowUp_gate 1000 (frozen Sample.saturday_3h) = None.
Proof.
  apply (getNextBusinessHour_spins_while_closed (frozen Sample.saturday_3h)).
  intros n. reflexivity.
Defined.

(** Called during business hours the function returns the next full hour
    without looking at it: at 21:30 on a Friday it returns 22:00, when
    business hours are over. *)
Lemma getNextBusinessHour_returns_closed_hour :
  let next := Sample.friday_9h + 13 * Js.ms_per_hour in
  getNextBusinessHour 1 (frozen Sample.friday_21h30) 0 = Some (next, 2%nat)
  /\ Js.getHours next = 22
  /\ isBusinessHours next = false.
Proof. vm_compute. repeat split. Qed.

End Hours.

(* ================================================================== *)
(** * Further properties of the Lead model                             *)
(* ================================================================== *)

Section LeadModel.

(** The points of the service type are between 0 and 25. *)
Lemma service_points_bounds (s : string) :
  0 <= Js.lookup s Lead.serviceTypeScores <= 25.
Proof. unfold Lead.serviceTypeScores; simpl. split_tests; lia. Qed.

(** X1.  The score [Lead.prototype.calculateScore] computes never
    exceeds 95: the cap at 100 is never reached, and 95 is. *)
Theorem lead_score_at_most_95 :
  (forall l : Lead.t, Lead.calculateScore l <= 95)
  /\ Lead.calculateScore
       (Lead.set_passenger_count (Js.number 8) Sample.acme) = 95.
Proof.
  split; [| reflexivity].
  intros l. unfold Lead.calculateScore, Js.min.
  pose proof (service_points_bounds (Lead.service_type l)).
  split_tests; lia.
Qed.

(** X2.  [updatePriority] always stores a level from 1 to 5, and a
    higher score never gets a lower level. *)
Theorem priority_in_range_and_monotone :
  forall a b : Lead.t,
    1 <= Lead.priority_level (Lead.updatePriority a) <= 5
    /\ (Lead.lead_score a <= Lead.lead_score b ->
        Lead.priority_level (Lead.updatePriority a)
        <= Lead.priority_level (Lead.updatePriority b)).
Proof.
  intros a b. unfold Lead.updatePriority, Lead.priority_of_score. simpl.
  split.
  - split_tests; lia.
  - intros Hle.
    repeat match goal with
           | |- context [?x <=? ?y] => destruct (Z.leb_spec x y)
           end; lia.
Qed.

Lemma priority_in_range_and_monotone_witness :
  Lead.priority_level
    (Lead.updatePriority (Lead.set_lead_score 35 Sample.acme))
  <= Lead.priority_level
       (Lead.updatePriority (Lead.set_lead_score 90 Sample.acme)).
Proof.
  refine (proj2 (priority_in_range_and_monotone
                   (Lead.set_lead_score 35 Sample.acme)
                   (Lead.set_lead_score 90 Sample.acme)) _).
  simpl. lia.
Defined.

(** X3.  When an update changes one of the four watched attributes, the
    score stored afterwards is the score of the lead as updated, and the
    priority stored is the level of that score. *)
Theorem update_stores_fresh_score :
  forall (now : Z) (values : list Lead.assignment) (l : Lead.t),
    Lead.scoring_changed l (Lead.set values l) = true ->
    let l' := Lead.update now values l in
    Lead.lead_score l' = Lead.calculateScore l'
    /\ Lead.priority_level l'
       = Lead.priority_of_score (Lead.calculateScore l').
Proof.
  intros now values l Hc l'. subst l'.
  unfold Lead.update, Lead.beforeUpdate. rewrite Hc.
  match goal with |- context [if ?b then _ else _] => destruct b end;
    split; reflexivity.
Qed.

Lemma update_stores_fresh_score_witness :
  Lead.lead_score
    (Lead.update Sample.friday_9h [Lead.estimated_value_is (Js.number 200)]
       (Lead.create Sample.acme)) = 70.
Proof.
  rewrite (proj1 (update_stores_fresh_score Sample.friday_9h
                    [Lead.estimated_value_is (Js.number 200)]
                    (Lead.create Sample.acme) eq_refl)).
  reflexivity.
Defined.

(** X5.  A distance that is [null] (a row read back without a distance)
    counts as distance 0 and earns the full 15 proximity points; a
    distance that is [undefined] (a lead being created without one) earns
    none. *)
Theorem null_distance_scores_as_zero :
  forall l : Lead.t,
    Lead.calculateScore (Lead.set_distance_from_base Js.null l)
    = Lead.calculateScore (Lead.set_distance_from_base (Js.number 0) l)
    /\ Lead.calculateScore (Lead.set_distance_from_base Js.null l)
       = Lead.calculateScore (Lead.set_distance_from_base Js.undefined l)
         + 15.
Proof.
  intros l. split; [reflexivity |].
  unfold Lead.calculateScore, Js.min. simpl.
  pose proof (service_points_bounds (Lead.service_type l)).
  split_tests; lia.
Qed.

End LeadModel.

(* ================================================================== *)
(** * Ordering of rows                                                 *)
(* ================================================================== *)

Section OrderBy.

Context {A : Type} (leb : A -> A -> bool).

Lemma insert_perm (x : A) (l : list A) :
  Permutation (Sql.insert leb x l) (x :: l).
Proof.
  induction l as [| y r IH]; simpl; [reflexivity |].
  destruct (leb x y); [reflexivity |].
  rewrite IH. apply perm_swap.
Qed.

Lemma order_by_perm (l : list A) : Permutation (Sql.order_by leb l) l.
Proof.
  induction l as [| x l IH]; simpl; [reflexivity |].
  now rewrite insert_perm, IH.
Qed.

Hypothesis leb_total : forall x y, leb x y = true \/ leb y x = true.

Lemma insert_sorted (x : A) (l : list A) :
  Sorted (fun a b => leb a b = true) l ->
  Sorted (fun a b => leb a b = true) (Sql.insert leb x l).
Proof.
  induction l as [| y r IH]; simpl; intros Hs.
  - repeat constructor.
  - destruct (leb x y) eqn:Hxy.
    + constructor; [exact Hs | now constructor].
    + apply Sorted_inv in Hs as [Hr Hhd].
      constructor; [now apply IH |].
      assert (Hyx : leb y x = true)
        by (destruct (leb_total x y); congruence).
      destruct r as [| z r]; simpl.
      * now constructor.
      * destruct (leb x z); constructor; [exact Hyx |].
        now inversion Hhd.
Qed.

Lemma order_by_sorted (l : list A) :
  Sorted (fun a b => leb a b = true) (Sql.order_by leb l).
Proof.
  induction l as [| x l IH]; simpl; [constructor | now apply insert_sorted].
Qed.

End OrderBy.

(* ================================================================== *)
(** * Further properties of the scoring factors                        *)
(* ================================================================== *)

Section Factors.

Import ScoringFactor.

Lemma by_weight_total (f g : t) :
  by_weight f g = true \/ by_weight g f = true.
Proof.
  unfold by_weight.
  destruct (Z.lt_trichotomy (weight f) (weight g)) as [Hlt | [Heq | Hgt]].
  - right. replace (weight f <? weight g) with true; [reflexivity |].
    symmetry. now apply Z.ltb_lt.
  - rewrite Heq, Z.ltb_irrefl, Z.eqb_refl. simpl.
    unfold String.leb.
    rewrite (String.compare_antisym (factor_name f) (factor_name g)).
    destruct (String.compare (factor_name g) (factor_name f)); simpl; auto.
  - left. replace (weight g <? weight f) with true; [reflexivity |].
    symmetry. apply Z.ltb_lt. lia.
Qed.

Lemma by_weight_descending (f g : t) :
  by_weight f g = true -> weight g <= weight f.
Proof.
  unfold by_weight. intros H. apply orb_prop in H as [H | H].
  - apply Z.ltb_lt in H. lia.
  - apply andb_prop in H as [H _]. apply Z.eqb_eq in H. lia.
Qed.

Lemma totalScore_perm (now : Z) (lead : Lead.t) (fs gs : list t) :
  Permutation fs gs -> totalScore now fs lead = totalScore now gs lead.
Proof.
  induction 1 as [| f fs gs _ IH | f g fs | fs gs hs _ IH1 _ IH2].
  - reflexivity.
  - now rewrite !totalScore_cons, IH.
  - rewrite !totalScore_cons. lia.
  - now rewrite IH1.
Qed.

(** The loop of [getScoreBreakdown]. *)
Lemma breakdown_loop (now : Z) (lead : Lead.t) (fs : list t) :
  forall b : breakdown,
    fold_left
      (fun b factor =>
         let score := calculateScore now factor lead in
         mkBreakdown (total_score b + score)
           (factors b
            ++ [mkEntry (factor_name factor) (factor_category factor)
                  (weight factor) score]))
      fs b
    = mkBreakdown (total_score b + totalScore now fs lead)
        (factors b
         ++ map (fun f => mkEntry (factor_name f) (factor_category f)
                            (weight f) (calculateScore now f lead)) fs).
Proof.
  induction fs as [| f fs IH]; intros b; simpl.
  - unfold totalScore. simpl. rewrite Z.add_0_r, app_nil_r. now destruct b.
  - rewrite IH. simpl. rewrite totalScore_cons, <- app_assoc. simpl.
    f_equal. lia.
Qed.

Lemma totalScore_sum (now : Z) (lead : Lead.t) (fs : list t) :
  totalScore now fs lead
  = fold_right Z.add 0 (map (fun f => calculateScore now f lead) fs).
Proof.
  induction fs as [| f fs IH]; [reflexivity |].
  rewrite totalScore_cons, IH. reflexivity.
Qed.

Lemma breakdown_total (now : Z) (table : list t) (lead : Lead.t) :
  total_score (getScoreBreakdown now table lead)
  = calculateLeadScore now table lead.
Proof.
  unfold getScoreBreakdown. rewrite breakdown_loop.
  cbn [total_score]. rewrite Z.add_0_l.
  unfold calculateLeadScore. f_equal.
  apply totalScore_perm, order_by_perm.
Qed.

(** X6.  The total of [getScoreBreakdown] is the score
    [calculateLeadScore] gives, and it is the sum of the listed scores
    capped at 100; the breakdown lists exactly the active factors, by
    descending weight. *)
Theorem breakdown_agrees_with_score :
  forall (now : Z) (table : list t) (lead : Lead.t),
    let b := getScoreBreakdown now table lead in
    total_score b = calculateLeadScore now table lead
    /\ total_score b
       = Js.min (fold_right Z.add 0 (map entry_score (factors b))) 100
    /\ Permutation (map entry_name (factors b))
                   (map factor_name (findActive table))
    /\ Sorted (fun x y => entry_weight y <= entry_weight x) (factors b).
Proof.
  intros now table lead b. subst b.
  split; [apply breakdown_total |].
  unfold getScoreBreakdown.
  rewrite breakdown_loop. cbn [total_score factors app]. rewrite Z.add_0_l.
  split; [| split].
  - f_equal. rewrite totalScore_sum, map_map. reflexivity.
  - rewrite map_map. cbn [entry_name].
    apply Permutation_map, order_by_perm.
  - pose proof (order_by_sorted by_weight by_weight_total
                  (filter active table)) as Hs.
    unfold findActive_ordered.
    induction Hs as [| f fs Hs IH Hhd]; simpl; constructor.
    + exact IH.
    + destruct Hhd as [| g gs Hfg]; simpl; constructor. simpl.
      now apply by_weight_descending.
Qed.

Lemma lookup_in (k : string) (m : list (string * Z)) :
  Js.lookup k m = 0 \/ exists k', In (k', Js.lookup k m) m.
Proof.
  induction m as [| [k' v] m IH]; simpl; [now left |].
  destruct (String.eqb k k').
  - right. exists k'. now left.
  - destruct IH as [IH | [k'' IH]]; [now left | right; exists k''; now right].
Qed.

Lemma first_in_range_in (value : Q) (m : list (string * Z)) :
  first_in_range value m = 0
  \/ exists k, In (k, first_in_range value m) m.
Proof.
  induction m as [| [k v] m IH]; simpl; [now left |].
  destruct (valueInRange value k).
  - right. exists k. now left.
  - destruct IH as [IH | [k' IH]]; [now left | right; exists k'; now right].
Qed.

(** X7.  A factor never awards points that are not in its mapping: its
    score is 0 or one of the mapped point values. *)
Theorem factor_score_is_mapped :
  forall (now : Z) (f : t) (lead : Lead.t),
    calculateScore now f lead = 0
    \/ exists k, In (k, calculateScore now f lead) (mappings_of f).
Proof.
  intros now f lead.
  unfold calculateScore, calculateExactMatch, calculateRange,
    calculateDynamic, calculateBoolean.
  repeat match goal with
         | |- context [if ?b then _ else _] => destruct b
         | |- context [match ?o with Some _ => _ | None => _ end] =>
             destruct o
         end;
    auto using lookup_in, first_in_range_in.
Qed.

(** X8.  The weight of a factor plays no part in the score: with any
    other weights the score and the total of the breakdown are the
    same. *)
Theorem weights_do_not_change_score :
  forall (w : t -> Z) (now : Z) (table : list t) (lead : Lead.t),
    let reweighed := map (fun f => with_weight (w f) f) table in
    calculateLeadScore now reweighed lead = calculateLeadScore now table lead
    /\ total_score (getScoreBreakdown now reweighed lead)
       = total_score (getScoreBreakdown now table lead).
Proof.
  intros w now table lead reweighed.
  assert (H : calculateLeadScore now reweighed lead
              = calculateLeadScore now table lead).
  { subst reweighed. unfold calculateLeadScore, findActive. f_equal.
    induction table as [| f table IH]; [reflexivity |].
    simpl. destruct (active f); [| exact IH].
    rewrite !totalScore_cons, IH. reflexivity. }
  split; [exact H |].
  now rewrite !breakdown_total.
Qed.

End Factors.

(* ================================================================== *)
(** * Decimal strings                                                  *)
(* ================================================================== *)

Section Decimal.

Lemma digits_uint_acc (d : Decimal.uint) :
  forall (acc : positive) (n : nat),
    Js.digits (Z.pos acc) n (NilEmpty.string_of_uint d)
    = (Z.pos (Pos.of_uint_acc d acc), (n + Decimal.nb_digits d)%nat, EmptyString).
Proof.
  induction d; intros acc n; cbn [NilEmpty.string_of_uint Js.digits];
    try (change (Js.is_digit _) with true; cbv iota);
    cbn [Pos.of_uint_acc Decimal.nb_digits];
    rewrite ?Nat.add_0_r, ?Nat.add_succ_r; try reflexivity;
    match goal with
    | |- Js.digits ?a _ _ = (Z.pos (Pos.of_uint_acc _ ?p), _, _) =>
        replace a with (Z.pos p);
        [| match goal with
           | |- context [Js.code ?c - 48] =>
               let v := eval vm_compute in (Js.code c - 48) in
               change (Js.code c - 48) with v
           end; lia]
    end;
    now rewrite IHd.
Qed.

Lemma digits_uint (d : Decimal.uint) :
  forall n : nat,
    Js.digits 0 n (NilEmpty.string_of_uint d)
    = (Z.of_uint d, (n + Decimal.nb_digits d)%nat, EmptyString).
Proof.
  unfold Z.of_uint.
  induction d; intros n; cbn [NilEmpty.string_of_uint Js.digits];
    try (change (Js.is_digit _) with true; cbv iota);
    cbn [Pos.of_uint Decimal.nb_digits];
    rewrite ?Nat.add_0_r, ?Nat.add_succ_r; try reflexivity;
    try (change (10 * 0 + (Js.code "0" - 48)) with 0; now rewrite IHd);
    match goal with
    | |- Js.digits ?a _ _ = (Z.of_N (N.pos (Pos.of_uint_acc _ ?p)), _, _) =>
        change a with (Z.pos p)
    end;
    now rewrite digits_uint_acc.
Qed.

(** The digits of a positive number: at least one, none of them a sign
    or a space, and they read back as the number. *)
Lemma digits_of_positive (p : positive) :
  exists c r,
    NilEmpty.string_of_uint (Pos.to_uint p) = String c r
    /\ Js.is_digit c = true
    /\ exists k, Js.digits 0 0 (String c r) = (Z.pos p, S k, EmptyString).
Proof.
  pose proof (Unsigned.to_uint_nonnil p) as Hnil.
  pose proof (DecimalZ.of_to (Z.pos p)) as Hval. cbn in Hval.
  pose proof (digits_uint (Pos.to_uint p) 0) as Hd. rewrite Hval in Hd.
  destruct (Pos.to_uint p) eqn:Hp; [contradiction | ..];
    cbn [NilEmpty.string_of_uint] in *;
    do 2 eexists; (split; [reflexivity | split; [reflexivity |]]);
    cbn [Decimal.nb_digits Nat.add] in Hd; eauto.
Qed.

Lemma toString_positive (p : positive) :
  Js.toString (Z.pos p) = NilEmpty.string_of_uint (Pos.to_uint p).
Proof.
  unfold Js.toString. cbn. unfold NilZero.string_of_uint.
  pose proof (Unsigned.to_uint_nonnil p).
  now destruct (Pos.to_uint p).
Qed.

Lemma digit_is_plain (c : ascii) (r : string) :
  Js.is_digit c = true ->
  Js.skip_spaces (String c r) = String c r
  /\ Js.sign_of (String c r) = (1, String c r).
Proof.
  intros Hd. unfold Js.is_digit in Hd. apply andb_prop in Hd as [H1 H2].
  apply Z.leb_le in H1, H2.
  split.
  - cbn [Js.skip_spaces]. unfold Js.is_space.
    replace (Js.code c =? 32) with false by (symmetry; apply Z.eqb_neq; lia).
    replace (Js.code c <=? 13) with false by (symmetry; apply Z.leb_gt; lia).
    now rewrite andb_false_r.
  - unfold Js.sign_of.
    destruct c as [[] [] [] [] [] [] [] []]; try reflexivity;
      vm_compute in H1, H2; exfalso; auto.
Qed.

(** [parseInt] reads back what [toString] writes. *)
Lemma parseInt_toString (n : Z) :
  Js.parseInt (Js.toString n) = Some (inject_Z n).
Proof.
  destruct n as [| p | p].
  - reflexivity.
  - rewrite toString_positive.
    destruct (digits_of_positive p) as (c & r & -> & Hc & k & Hd).
    unfold Js.parseInt.
    destruct (digit_is_plain c r Hc) as [-> ->]. rewrite Hd.
    now rewrite Z.mul_1_l.
  - unfold Js.toString. cbn [Z.to_int NilZero.string_of_int].
    change (NilZero.string_of_uint (Pos.to_uint p))
      with (Js.toString (Z.pos p)).
    rewrite toString_positive.
    destruct (digits_of_positive p) as (c & r & -> & Hc & k & Hd).
    unfold Js.parseInt.
    change (Js.skip_spaces (String "-" (String c r)))
      with (String "-" (String c r)).
    cbn [Js.sign_of]. rewrite Hd. reflexivity.
Qed.

(** [Number] reads back what [toString] writes for a number that is not
    negative. *)
Lemma Number_toString (n : Z) :
  0 <= n -> Js.Number (Js.toString n) = Some (inject_Z n).
Proof.
  intros Hn. destruct n as [| p | p]; [reflexivity | | lia].
  rewrite toString_positive.
  destruct (digits_of_positive p) as (c & r & -> & Hc & k & Hd).
  unfold Js.Number.
  destruct (digit_is_plain c r Hc) as [-> ->]. rewrite Hd.
  cbn. unfold inject_Z. now rewrite Pos.mul_1_r.
Qed.

Lemma includes_app (c : ascii) (a b : string) :
  Js.includes c (a ++ b)%string = Js.includes c a || Js.includes c b.
Proof.
  induction a as [| d a IH]; simpl; [reflexivity |].
  now rewrite IH, orb_assoc.
Qed.

Lemma remove_first_app (c : ascii) (a b : string) :
  Js.includes c a = false ->
  Js.remove_first c (a ++ String c b)%string = (a ++ b)%string.
Proof.
  induction a as [| d a IH]; simpl; intros H.
  - now rewrite Ascii.eqb_refl.
  - apply orb_false_iff in H as [Hd Ha]. now rewrite Hd, IH.
Qed.

Lemma split_app (c : ascii) (a b : string) :
  Js.includes c a = false ->
  Js.split c (a ++ String c b)%string = a :: Js.split c b.
Proof.
  induction a as [| d a IH]; simpl; intros H.
  - now rewrite Ascii.eqb_refl.
  - apply orb_false_iff in H as [Hd Ha]. now rewrite Hd, IH.
Qed.

Lemma split_none (c : ascii) (a : string) :
  Js.includes c a = false -> Js.split c a = [a].
Proof.
  induction a as [| d a IH]; simpl; intros H; [reflexivity |].
  apply orb_false_iff in H as [Hd Ha]. now rewrite Hd, IH.
Qed.

(** The digits of a number hold no sign. *)
Lemma uint_no_sign (c : ascii) (d : Decimal.uint) :
  Js.is_digit c = false ->
  Js.includes c (NilEmpty.string_of_uint d) = false.
Proof.
  intros Hc. induction d; cbn [NilEmpty.string_of_uint Js.includes];
    [reflexivity | ..]; rewrite IHd, orb_false_r;
    destruct (Ascii.eqb_spec c "0"), (Ascii.eqb_spec c "1"),
      (Ascii.eqb_spec c "2"), (Ascii.eqb_spec c "3"), (Ascii.eqb_spec c "4"),
      (Ascii.eqb_spec c "5"), (Ascii.eqb_spec c "6"), (Ascii.eqb_spec c "7"),
      (Ascii.eqb_spec c "8"), (Ascii.eqb_spec c "9");
    subst; try discriminate; auto.
Qed.

Lemma toString_no_sign (c : ascii) (n : Z) :
  0 <= n -> Js.is_digit c = false -> Js.includes c (Js.toString n) = false.
Proof.
  intros Hn Hc. destruct n as [| p | p]; [| | lia].
  - cbn. destruct (Ascii.eqb_spec c "0"); [subst; discriminate | reflexivity].
  - rewrite toString_positive. now apply uint_no_sign.
Qed.

End Decimal.

(* ================================================================== *)
(** * Range keys                                                       *)
(* ================================================================== *)

Section RangeKeys.

Import ScoringFactor.

Lemma Qle_bool_false (x y : Q) : (y < x)%Q -> Qle_bool x y = false.
Proof.
  intros Hlt. destruct (Qle_bool x y) eqn:H; [| reflexivity].
  apply Qle_bool_iff in H. exfalso. now apply (Qlt_not_le y x).
Qed.

Lemma append_empty (s : string) : (s ++ EmptyString)%string = s.
Proof. induction s as [| c s IH]; simpl; [reflexivity | now rewrite IH]. Qed.

(** X9.  A range key written with whole numbers means what it says:
    ["a+"] holds the values from [a] on, ["a-b"] the values from [a] to
    [b], both included, and ["a"] the value [a] alone. *)
Theorem range_keys_hold_their_bounds :
  forall (value : Q) (a b : Z),
    0 <= a -> 0 <= b ->
    valueInRange value (Js.toString a ++ "+")%string
    = Qle_bool (inject_Z a) value
    /\ valueInRange value (Js.toString a ++ "-" ++ Js.toString b)%string
       = Qle_bool (inject_Z a) value && Qle_bool value (inject_Z b)
    /\ valueInRange value (Js.toString a)
       = Qeq_bool value (inject_Z a).
Proof.
  intros value a b Ha Hb.
  assert (Hplus : forall n, 0 <= n ->
                            Js.includes "+" (Js.toString n) = false)
    by (intros; now apply toString_no_sign).
  assert (Hminus : forall n, 0 <= n ->
                             Js.includes "-" (Js.toString n) = false)
    by (intros; now apply toString_no_sign).
  unfold valueInRange. split; [| split].
  - rewrite includes_app. cbn [Js.includes]. rewrite Ascii.eqb_refl.
    rewrite orb_true_r.
    rewrite remove_first_app by auto.
    rewrite append_empty, parseInt_toString. reflexivity.
  - rewrite !includes_app, Hplus, Hplus by assumption.
    cbn [Js.includes orb].
    change (Ascii.eqb "+" "-") with false. cbn [orb].
    change (Ascii.eqb "-" "-") with true. rewrite orb_true_r.
    change ("-" ++ Js.toString b)%string with (String "-" (Js.toString b)).
    rewrite split_app, split_none by auto.
    cbn [map]. rewrite !Number_toString by assumption. reflexivity.
  - rewrite Hplus, Hminus by assumption.
    now rewrite parseInt_toString.
Qed.

Lemma range_keys_hold_their_bounds_witness :
  valueInRange 750 "500-999" = true /\ valueInRange 999.5 "500-999" = false.
Proof.
  destruct (range_keys_hold_their_bounds 750 500 999) as (_ & H1 & _);
    [discriminate | discriminate |].
  destruct (range_keys_hold_their_bounds 999.5 500 999) as (_ & H2 & _);
    [discriminate | discriminate |].
  split; [exact H1 | exact H2].
Defined.

Lemma value_tiers (q : Q) :
  first_in_range q (mappings_of Cases.value_tier)
  = if Qle_bool 1000 q then 30
    else if Qle_bool 500 q && Qle_bool q 999 then 20
    else if Qle_bool 100 q && Qle_bool q 499 then 10
    else if Qle_bool 0 q && Qle_bool q 99 then 5
    else 0.
Proof. reflexivity. Qed.

(** X10.  With the default value tiers, an estimated value strictly
    between 999 and 1000 falls between the buckets and earns nothing,
    where 500 to 999 earns 20 and 1000 or more earns 30. *)
Theorem value_between_tiers_scores_nothing :
  forall (now : Z) (lead : Lead.t) (q : Q),
    Lead.estimated_value lead = Js.number q ->
    In Cases.value_tier defaultFactors
    /\ ((999 < q)%Q -> (q < 1000)%Q ->
        calculateScore now Cases.value_tier lead = 0)
    /\ ((500 <= q)%Q -> (q <= 999)%Q ->
        calculateScore now Cases.value_tier lead = 20)
    /\ ((1000 <= q)%Q -> calculateScore now Cases.value_tier lead = 30).
Proof.
  intros now lead q Hq.
  assert (Hscore : ~ (q == 0)%Q ->
            calculateScore now Cases.value_tier lead
            = first_in_range q (mappings_of Cases.value_tier)).
  { intros Hnz. unfold calculateScore, calculateRange. cbn.
    rewrite Hq. unfold Js.or_else.
    destruct (Qeq_bool q 0) eqn:H0; [| reflexivity].
    apply Qeq_bool_iff in H0. contradiction. }
  split; [right; now left | split; [| split]].
  - intros Hlo Hhi.
    rewrite Hscore, value_tiers.
    + rewrite (Qle_bool_false 1000 q Hhi).
      rewrite (Qle_bool_false q 999 Hlo), andb_false_r.
      assert (H499 : (499 < q)%Q)
        by (eapply Qlt_trans; [| exact Hlo]; reflexivity).
      rewrite (Qle_bool_false q 499 H499), andb_false_r.
      assert (H99 : (99 < q)%Q)
        by (eapply Qlt_trans; [| exact Hlo]; reflexivity).
      now rewrite (Qle_bool_false q 99 H99), andb_false_r.
    + intros H0. rewrite H0 in Hlo. discriminate Hlo.
  - intros Hlo Hhi.
    rewrite Hscore, value_tiers.
    + assert (H1000 : (q < 1000)%Q)
        by (eapply Qle_lt_trans; [exact Hhi | reflexivity]).
      rewrite (Qle_bool_false 1000 q H1000).
      apply Qle_bool_iff in Hlo, Hhi. now rewrite Hlo, Hhi.
    + intros H0. rewrite H0 in Hlo. now apply Hlo.
  - intros Hlo.
    rewrite Hscore, value_tiers.
    + apply Qle_bool_iff in Hlo. now rewrite Hlo.
    + intros H0. rewrite H0 in Hlo. now apply Hlo.
Qed.

Lemma value_between_tiers_scores_nothing_witness :
  calculateScore 0 Cases.value_tier
    (Lead.set_estimated_value (Js.number 999.5) Sample.acme) = 0
  /\ calculateScore 0 Cases.value_tier
       (Lead.set_estimated_value (Js.number 999) Sample.acme) = 20.
Proof.
  split.
  - refine (proj1 (proj2 (value_between_tiers_scores_nothing 0
              (Lead.set_estimated_value (Js.number 999.5) Sample.acme)
              999.5 eq_refl)) _ _); reflexivity.
  - refine (proj1 (proj2 (proj2 (value_between_tiers_scores_nothing 0
              (Lead.set_estimated_value (Js.number 999) Sample.acme)
              999 eq_refl))) _ _); discriminate.
Defined.

End RangeKeys.

(* ================================================================== *)
(** * Further properties of the follow-up sequences                    *)
(* ================================================================== *)

Section SequenceLife.

Import EmailSequence.

Lemma advance_below (now : Z) (s : t) :
  current_step s < total_steps s ->
  current_step (advance now s) = current_step s + 1
  /\ total_steps (advance now s) = total_steps s
  /\ active (advance now s) = active s
  /\ completed_at (advance now s) = completed_at s
  /\ emails_sent (advance now s) = emails_sent s.
Proof.
  intros Hlt. unfold advance. apply Z.ltb_lt in Hlt. rewrite Hlt.
  unfold calculateNextSendTime.
  match goal with |- context [if ?b then _ else _] => destruct b end;
    repeat split.
Qed.

Lemma advance_all_below (times : list Z) :
  forall s : t,
    current_step s + Z.of_nat (List.length times) <= total_steps s ->
    current_step (advance_all times s)
    = current_step s + Z.of_nat (List.length times)
    /\ total_steps (advance_all times s) = total_steps s
    /\ active (advance_all times s) = active s
    /\ completed_at (advance_all times s) = completed_at s.
Proof.
  unfold advance_all.
  induction times as [| now times IH]; intros s Hle.
  - simpl. repeat split. lia.
  - cbn [fold_left]. cbn [List.length] in Hle.
    destruct (advance_below now s) as (H1 & H2 & H3 & H4 & _); [lia |].
    destruct (IH (advance now s)) as (I1 & I2 & I3 & I4).
    + rewrite H1, H2. lia.
    + rewrite I1, I2, I3, I4, H1, H2, H3, H4. cbn [List.length].
      repeat split. lia.
Qed.

(** X11.  A sequence runs through its steps one [advance] at a time: it
    stays as active as it was while steps are left, and the [advance]
    after the last step completes it, at the last step, at the time of
    that call. *)
Theorem sequence_completes_after_last_step :
  forall (times : list Z) (last : Z) (s : t),
    current_step s + Z.of_nat (List.length times) = total_steps s ->
    let before := advance_all times s in
    let after := advance last before in
    (current_step before = total_steps s /\ active before = active s)
    /\ (current_step after = total_steps s
        /\ active after = false
        /\ completed_at after = Some last
        /\ next_send_at after = None).
Proof.
  intros times last s Hlen before after.
  destruct (advance_all_below times s) as (H1 & H2 & H3 & _); [lia |].
  fold before in H1, H2, H3.
  split; [split; [lia | exact H3] |].
  subst after. unfold advance.
  replace (current_step before <? total_steps before) with false
    by (symmetry; apply Z.ltb_ge; lia).
  cbn. repeat split. lia.
Qed.

Lemma sequence_completes_after_last_step_witness :
  let s := Sample.follow_up in
  let times := [Sample.friday_9h; Sample.friday_9h; Sample.friday_9h] in
  active (advance_all times s) = true
  /\ active (advance Sample.saturday_3h (advance_all times s)) = false
  /\ completed_at (advance Sample.saturday_3h (advance_all times s))
     = Some Sample.saturday_3h.
Proof.
  intros s times.
  destruct (sequence_completes_after_last_step times Sample.saturday_3h s
              eq_refl) as ((_ & Hactive) & (_ & Hdone & Hat & _)).
  split; [rewrite Hactive; reflexivity | split; assumption].
Defined.

(** X12.  Pausing and then resuming a sequence forgets the pause: the
    sequence is active again, without a reason, and its next send time is
    the time of resuming plus the delay of the current step, as if it had
    been resumed without the pause. *)
Theorem resume_after_pause :
  forall (now : Z) (reason : string) (s : t),
    current_step s <= 4 ->
    resume now (pause reason s) = resume now s
    /\ active (resume now s) = true
    /\ paused_reason (resume now s) = None
    /\ current_step (resume now s) = current_step s
    /\ next_send_at (resume now s)
       = Some (now
               + match index (timingMinutes s) (current_step s - 1) with
                 | Some d => d
                 | None => 0
                 end * 60 * 1000).
Proof.
  intros now reason s Hstep.
  unfold resume, pause, calculateNextSendTime.
  cbn [current_step]. 
  change (timingMinutes (mk _ _ (sequence_name s) _ _ _ _ _ _ _ _ _))
    with (timingMinutes s).
  rewrite !timing_length.
  replace (current_step s <=? Z.of_nat 4) with true
    by (symmetry; apply Z.leb_le; simpl; lia).
  repeat split.
Qed.

Lemma resume_after_pause_witness :
  resume Sample.saturday_3h (pause "customer_responded" Sample.follow_up)
  = resume Sample.saturday_3h Sample.follow_up
  /\ next_send_at (resume Sample.saturday_3h Sample.follow_up)
     = Some Sample.saturday_3h.
Proof.
  destruct (resume_after_pause Sample.saturday_3h "customer_responded"
              Sample.follow_up) as (Hsame & _ & _ & _ & Hnext).
  - discriminate.
  - split; [exact Hsame | rewrite Hnext; reflexivity].
Defined.

Lemma by_next_send_at_total (a b : t) :
  by_next_send_at a b = true \/ by_next_send_at b a = true.
Proof.
  unfold by_next_send_at.
  destruct (next_send_at a) as [x |], (next_send_at b) as [y |]; auto.
  destruct (Z.leb_spec x y); [now left | right; apply Z.leb_le; lia].
Qed.

(** X13.  [findDue] returns exactly the active sequences whose send time
    has come, earliest first; a sequence that was paused or completed is
    never among them. *)
Theorem findDue_returns_due_sequences :
  forall (now : Z) (rows : table),
    (forall s,
        In s (findDue now rows)
        <-> In s rows /\ active s = true
            /\ exists at_, next_send_at s = Some at_ /\ at_ <= now)
    /\ Sorted (fun a b => by_next_send_at a b = true) (findDue now rows)
    /\ (forall reason at_ s,
           due now (pause reason s) = false
           /\ due now (complete at_ s) = false).
Proof.
  intros now rows. unfold findDue. split; [| split].
  - intros s. split.
    + intros Hin.
      apply (Permutation_in _ (order_by_perm by_next_send_at _)) in Hin.
      apply filter_In in Hin as [Hin Hdue]. unfold due in Hdue.
      apply andb_prop in Hdue as [Ha Ht].
      destruct (next_send_at s) as [at_ |]; [| discriminate].
      apply Z.leb_le in Ht. eauto.
    + intros (Hin & Ha & at_ & Hat & Hle).
      apply (Permutation_in _
               (Permutation_sym (order_by_perm by_next_send_at _))).
      apply filter_In. split; [exact Hin |].
      unfold due. rewrite Ha, Hat. now apply Z.leb_le.
  - apply order_by_sorted, by_next_send_at_total.
  - intros reason at_ s. split; reflexivity.
Qed.

(** One sequence step whose email went out, on a table of one row. *)
Lemma sent_step (now : Z) (st : Lead.Status) (r : t) :
  id r = 0 -> active r = true -> open st = true ->
  1 <= current_step r <= 4 ->
  processSequenceStep now 0 st false email_sent [r]
  = (step_completed, [advance now (recordEmailSent r)]).
Proof.
  intros Hid Hact Hopen Hstep.
  assert (Hida : id (advance now (recordEmailSent r)) = 0)
    by (rewrite (proj1 (advance_frame now (recordEmailSent r))); exact Hid).
  unfold processSequenceStep, findByPk.
  cbn [find]. rewrite Hid. cbn [Z.eqb]. rewrite Hact. cbn [negb].
  unfold open in Hopen. apply negb_true_iff in Hopen. rewrite Hopen.
  assert (Hlen : forall name,
             List.length
               (table_or name stepTemplates
                  ["instant_response"; "follow_up_3day"; "follow_up_7day";
                   "follow_up_14day"]) = 4%nat
             /\ Forall (fun x => x <> EmptyString)
                  (table_or name stepTemplates
                     ["instant_response"; "follow_up_3day";
                      "follow_up_7day"; "follow_up_14day"])).
  { intros name. unfold stepTemplates. simpl.
    split_tests; split; try reflexivity;
      repeat constructor; discriminate. }
  destruct (Hlen (sequence_name r)) as [H4 Hne].
  unfold index.
  replace (current_step r - 1 <? 0) with false
    by (symmetry; apply Z.ltb_ge; lia).
  destruct (nth_error _ (Z.to_nat (current_step r - 1))) as [name |] eqn:Hn.
  - apply nth_error_In in Hn. rewrite Forall_forall in Hne.
    specialize (Hne name Hn). destruct name; [contradiction |].
    unfold save. cbn [map]. now rewrite Hida, Hid.
  - apply nth_error_None in Hn. rewrite H4 in Hn. lia.
Qed.

(** X14.  The whole life of a follow-up sequence: created by the instant
    response, it takes four sequence steps whose emails go out to send
    four emails and complete; a fifth step is skipped and changes
    nothing. *)
Theorem four_sent_steps_complete_the_sequence :
  forall (lead : Lead.t) (t0 t1 t2 t3 t4 t5 : Z)
         (s1 s2 s3 s4 s5 : Lead.Status),
    open s1 = true -> open s2 = true -> open s3 = true -> open s4 = true ->
    let rows :=
      run [instant_response t0 lead;
           sequence_step t1 0 s1 false email_sent;
           sequence_step t2 0 s2 false email_sent;
           sequence_step t3 0 s3 false email_sent;
           sequence_step t4 0 s4 false email_sent] in
    (exists s,
        rows = [s]
        /\ lead_id s = Lead.id lead
        /\ emails_sent s = 4
        /\ current_step s = 4
        /\ active s = false
        /\ completed_at s = Some t4)
    /\ processSequenceStep t5 0 s5 false email_sent rows = (skipped, rows).
Proof.
  intros lead t0 t1 t2 t3 t4 t5 s1 s2 s3 s4 s5 H1 H2 H3 H4 rows.
  subst rows. unfold run. cbn [fold_left step].
  unfold processInstantResponse. cbn [findActive filter List.length Nat.eqb].
  set (ty := if 70 <=? Lead.lead_score lead then _ else _).
  unfold createStandardSequence. rewrite steps_configured. cbn [snd app].
  set (r0 := calculateNextSendTime t0 _).
  assert (F0 : id r0 = 0 /\ lead_id r0 = Lead.id lead /\ active r0 = true
               /\ current_step r0 = 1 /\ total_steps r0 = 4
               /\ emails_sent r0 = 0).
  { subst r0. unfold calculateNextSendTime.
    match goal with |- context [if ?b then _ else _] => destruct b end;
      repeat split. }
  destruct F0 as (I0 & L0 & A0 & C0 & T0 & E0).
  assert (Hstep : forall now r,
             id r = 0 -> lead_id r = Lead.id lead -> active r = true ->
             total_steps r = 4 -> current_step r < 4 ->
             let r' := advance now (recordEmailSent r) in
             id r' = 0 /\ lead_id r' = Lead.id lead /\ active r' = true
             /\ total_steps r' = 4 /\ current_step r' = current_step r + 1
             /\ emails_sent r' = emails_sent r + 1).
  { intros now r Hi Hl Ha Ht Hc r'. subst r'.
    destruct (advance_frame now (recordEmailSent r)) as (F1 & F2 & F3 & _).
    destruct (advance_below now (recordEmailSent r))
      as (B1 & _ & B3 & _ & B5); [cbn; lia |].
    rewrite F1, F2, F3, B1, B3, B5. cbn. repeat split; auto. }
  rewrite (sent_step t1 s1 r0) by (auto; lia). cbn [snd].
  destruct (Hstep t1 r0) as (I1 & L1 & A1 & T1 & C1 & E1); auto; [lia |].
  set (r1 := advance t1 (recordEmailSent r0)) in *.
  rewrite (sent_step t2 s2 r1) by (auto; lia). cbn [snd].
  destruct (Hstep t2 r1) as (I2 & L2 & A2 & T2 & C2 & E2); auto; [lia |].
  set (r2 := advance t2 (recordEmailSent r1)) in *.
  rewrite (sent_step t3 s3 r2) by (auto; lia). cbn [snd].
  destruct (Hstep t3 r2) as (I3 & L3 & A3 & T3 & C3 & E3); auto; [lia |].
  set (r3 := advance t3 (recordEmailSent r2)) in *.
  rewrite (sent_step t4 s4 r3) by (auto; lia). cbn [snd].
  set (r4 := advance t4 (recordEmailSent r3)).
  assert (F4 : id r4 = 0 /\ lead_id r4 = Lead.id lead /\ emails_sent r4 = 4
               /\ current_step r4 = 4 /\ active r4 = false
               /\ completed_at r4 = Some t4).
  { subst r4. unfold advance.
    replace (current_step (recordEmailSent r3)
             <? total_steps (recordEmailSent r3)) with false
      by (symmetry; apply Z.ltb_ge; cbn; lia).
    cbn. repeat split; auto; lia. }
  destruct F4 as (I4 & L4 & E4 & C4 & A4 & D4).
  split.
  - exists r4. repeat split; assumption.
  - unfold processSequenceStep, findByPk. cbn [find].
    rewrite I4. cbn [Z.eqb]. now rewrite A4.
Qed.

Lemma four_sent_steps_complete_the_sequence_witness :
  exists s,
    run [instant_response 0 Sample.acme;
         sequence_step 1 0 Lead.new false email_sent;
         sequence_step 2 0 Lead.contacted false email_sent;
         sequence_step 3 0 Lead.contacted false email_sent;
         sequence_step 4 0 Lead.qualified false email_sent] = [s]
    /\ emails_sent s = 4 /\ active s = false.
Proof.
  destruct (four_sent_steps_complete_the_sequence Sample.acme 0 1 2 3 4 5
              Lead.new Lead.contacted Lead.contacted Lead.qualified Lead.new
              eq_refl eq_refl eq_refl eq_refl)
    as ((s & Hrows & _ & Hsent & _ & Hactive & _) & _).
  exists s. auto.
Defined.

End SequenceLife.

(* ================================================================== *)
(** * Webhook replay                                                   *)
(* ================================================================== *)

Section Replay.

Import Webhooks.

Variable valid : Lead.t -> bool.

Lemma Lead_create_appends (now : Z) (values lead : Lead.t)
    (rows rows' : list Lead.t) :
  Lead_create valid now values rows = inr (lead, rows') ->
  rows' = rows ++ [lead]
  /\ lead = Lead.stamp (fresh_id rows) now (Lead.create values)
  /\ match Lead.email lead with
     | Some e => existsb (same_email e) rows = false
     | None => True
     end.
Proof.
  unfold Lead_create. destruct (negb (valid values)); [discriminate |].
  destruct (Lead.email (Lead.stamp (fresh_id rows) now (Lead.create values)))
    as [e |] eqn:He.
  - destruct (existsb (same_email e) rows) eqn:Hnone; [discriminate |].
    intros H. injection H as <- <-. rewrite He. auto.
  - intros H. injection H as <- <-. rewrite He. auto.
Qed.

Lemma Lead_create_keeps_unique (now : Z) (values lead : Lead.t)
    (rows rows' : list Lead.t) :
  Lead_create valid now values rows = inr (lead, rows') ->
  unique_emails rows -> unique_emails rows'.
Proof.
  intros Hc Hu. apply Lead_create_appends in Hc as (-> & _ & Hnone).
  intros e. rewrite count_email_app. pose proof (Hu e) as Hone.
  unfold count_email at 2. cbn [filter].
  destruct (same_email e lead) eqn:Hs; cbn [List.length]; [| lia].
  unfold same_email in Hs. destruct (Lead.email lead) as [e' |];
    [| discriminate].
  apply String.eqb_eq in Hs. subst e'.
  rewrite (count_email_none _ _ Hnone). lia.
Qed.

(** What one run of the replay job does to the log and to the leads. *)
Lemma replay_step (now maxRetries : Z) (log : WebhookLog) (p : payload)
    (rows : list Lead.t) :
  exists st log' rows',
    processWebhookReplay valid now maxRetries (Some log) p rows
    = (st, Some log', rows')
    /\ (canRetry maxRetries log = false -> log' = log /\ rows' = rows)
    /\ retry_count log <= retry_count log'
    /\ (retry_count log <= maxRetries -> retry_count log' <= maxRetries)
    /\ (unique_emails rows -> unique_emails rows')
    /\ (rows' = rows
        \/ exists lead,
             rows' = rows ++ [lead] /\ processed log' = true
             /\ log_lead_id log' = Some (Lead.id lead)).
Proof.
  unfold processWebhookReplay, canRetry.
  destruct (processed log) eqn:Hp.
  { do 3 eexists. split; [reflexivity |].
    repeat split; auto; try lia. }
  destruct (Z.leb_spec maxRetries (retry_count log)) as [Hmax | Hlt].
  { do 3 eexists. split; [reflexivity |].
    repeat split; auto; try lia. }
  replace (retry_count log <? maxRetries) with true
    by (symmetry; now apply Z.ltb_lt).
  destruct (String.eqb (source log) "website_form").
  - unfold replayFormSubmissionWebhook.
    destruct (find _ rows) as [existing |].
    + do 3 eexists. split; [reflexivity |].
      repeat split; cbn; auto; try discriminate; lia.
    + destruct (Lead_create valid now (extractLeadData p) rows)
        as [e | [lead rows']] eqn:Hc.
      * do 3 eexists. split; [reflexivity |].
        repeat split; cbn; auto; try discriminate; lia.
      * do 3 eexists. split; [reflexivity |].
        split; [discriminate |]. split; [cbn; lia |].
        split; [cbn; lia |].
        split; [now apply (Lead_create_keeps_unique _ _ _ _ _ Hc) |].
        right. exists lead.
        apply Lead_create_appends in Hc as (-> & _ & _). auto.
  - destruct (String.eqb (source log) "zoho_crm"
              || String.eqb (source log) "email_provider");
      do 3 eexists; (split; [reflexivity |]);
      repeat split; cbn; auto; try discriminate; lia.
Qed.

Lemma replay_all_processed (maxRetries : Z) (p : payload) (times : list Z)
    (log : WebhookLog) (rows : list Lead.t) :
  processed log = true ->
  replay_all valid maxRetries p times (Some log) rows = (Some log, rows).
Proof.
  intros Hp. induction times as [| now times IH]; [reflexivity |].
  cbn [replay_all]. unfold processWebhookReplay. rewrite Hp. exact IH.
Qed.

(** X15.  Replays are bounded: however often the replay job of a webhook
    runs, its retry count never passes [maxRetries]; once the webhook is
    processed or its retries are used up, a replay changes neither the
    log nor the leads; and the leads keep one row per email. *)
Theorem replay_is_bounded :
  forall (maxRetries : Z) (p : payload) (times : list Z)
         (log : WebhookLog) (rows : list Lead.t),
    retry_count log <= maxRetries ->
    exists log' rows',
      replay_all valid maxRetries p times (Some log) rows
      = (Some log', rows')
      /\ retry_count log <= retry_count log' <= maxRetries
      /\ (canRetry maxRetries log = false -> log' = log /\ rows' = rows)
      /\ (unique_emails rows -> unique_emails rows').
Proof.
  intros maxRetries p times.
  induction times as [| now times IH]; intros log rows Hle.
  - exists log, rows. repeat split; auto; lia.
  - cbn [replay_all].
    destruct (replay_step now maxRetries log p rows)
      as (st & log1 & rows1 & -> & Hfrozen & Hup & Hmax & Huniq & _).
    destruct (IH log1 rows1 (Hmax Hle))
      as (log' & rows' & -> & Hbound & Hfrozen' & Huniq').
    exists log', rows'. split; [reflexivity |].
    split; [lia | split; [| auto]].
    intros Hno. destruct (Hfrozen Hno) as [-> ->]. auto.
Qed.

(** X16.  Replaying a webhook any number of times creates at most one
    lead: the leads are left as they were, or one lead is appended, the
    log is processed and it is linked to that lead. *)
Theorem replay_creates_at_most_one_lead :
  forall (maxRetries : Z) (p : payload) (times : list Z)
         (log : WebhookLog) (rows : list Lead.t),
    exists log' rows',
      replay_all valid maxRetries p times (Some log) rows
      = (Some log', rows')
      /\ (rows' = rows
          \/ exists lead,
               rows' = rows ++ [lead] /\ processed log' = true
               /\ log_lead_id log' = Some (Lead.id lead)
               /\ lead = Lead.stamp (fresh_id rows) (Lead.created_at lead)
                           (Lead.create (extractLeadData p))).
Proof.
  intros maxRetries p times.
  induction times as [| now times IH]; intros log rows.
  - exists log, rows. auto.
  - cbn [replay_all]. unfold processWebhookReplay.
    destruct (processed log) eqn:Hp; [apply IH |].
    destruct (maxRetries <=? retry_count log); [apply IH |].
    destruct (String.eqb (source log) "website_form").
    + unfold replayFormSubmissionWebhook.
      destruct (find _ rows) as [existing |].
      * rewrite replay_all_processed by reflexivity. eauto.
      * destruct (Lead_create valid now (extractLeadData p) rows)
          as [e | [lead rows']] eqn:Hc; [apply IH |].
        rewrite replay_all_processed by reflexivity.
        apply Lead_create_appends in Hc as (-> & Hlead & _).
        do 2 eexists. split; [reflexivity |]. right. exists lead.
        repeat split. rewrite Hlead at 1. now rewrite Hlead.
    + destruct (String.eqb (source log) "zoho_crm"
                || String.eqb (source log) "email_provider").
      * rewrite replay_all_processed by reflexivity. eauto.
      * apply IH.
Qed.

(** X17.  A webhook whose insert is refused every time is tried exactly
    [maxRetries] times: after [n] replays its retry count is the smaller
    of [n] and [maxRetries], no lead is created, and [findForRetry] lists
    it as long as [n] is below [maxRetries]. *)
Theorem refused_webhook_is_retried_maxRetries_times :
  forall (maxRetries : Z) (p : payload) (times : list Z)
         (log : WebhookLog) (rows : list Lead.t),
    0 <= maxRetries ->
    processed log = false -> retry_count log = 0 ->
    source log = "website_form" ->
    find (same_email (or_string (p_email p) EmptyString)) rows = None ->
    valid (extractLeadData p) = false ->
    exists log',
      replay_all valid maxRetries p times (Some log) rows
      = (Some log', rows)
      /\ retry_count log' = Z.min (Z.of_nat (List.length times)) maxRetries
      /\ processed log' = false
      /\ findForRetry maxRetries [log']
         = if Z.of_nat (List.length times) <? maxRetries then [log'] else [].
Proof.
  intros maxRetries p times log rows Hmax Hp H0 Hsrc Hfind Hvalid.
  assert (Hgen : forall times log,
             processed log = false -> 0 <= retry_count log <= maxRetries ->
             source log = "website_form" ->
             exists log',
               replay_all valid maxRetries p times (Some log) rows
               = (Some log', rows)
               /\ retry_count log'
                  = Z.min (retry_count log + Z.of_nat (List.length times))
                          maxRetries
               /\ processed log' = false).
  { clear times log Hp H0 Hsrc.
    induction times as [| now times IH]; intros log Hp Hr Hsrc.
    - exists log. cbn [replay_all List.length]. repeat split; auto. lia.
    - cbn [replay_all]. unfold processWebhookReplay. rewrite Hp.
      destruct (Z.leb_spec maxRetries (retry_count log)) as [Hfull | Hleft].
      + destruct (IH log Hp Hr Hsrc) as (log' & -> & Hc & Hp').
        exists log'. repeat split; auto.
        change (List.length (now :: times)) with (S (List.length times)).
        lia.
      + rewrite Hsrc.
        change (String.eqb "website_form" "website_form") with true.
        cbv iota.
        unfold replayFormSubmissionWebhook, Lead_create.
        cbn [Lead.email extractLeadData Js.key].
        rewrite Hfind, Hvalid. cbn [negb].
        destruct (IH (markFailed (message ValidationError) log))
          as (log' & -> & Hc & Hp'); cbn [markFailed processed retry_count source];
          auto; try lia.
        exists log'. repeat split; auto.
        cbn [markFailed retry_count] in Hc.
        change (List.length (now :: times)) with (S (List.length times)).
        lia. }
  destruct (Hgen times log Hp ltac:(lia) Hsrc) as (log' & Hrun & Hc & Hp').
  exists log'. rewrite H0, Z.add_0_l in Hc.
  repeat split; auto.
  unfold findForRetry. cbn [filter]. rewrite Hp', Hc. cbn [negb andb].
  destruct (Z.ltb_spec (Z.of_nat (List.length times)) maxRetries);
    [replace (Z.min _ _ <? maxRetries) with true
       by (symmetry; apply Z.ltb_lt; lia)
    | replace (Z.min _ _ <? maxRetries) with false
        by (symmetry; apply Z.ltb_ge; lia)];
    reflexivity.
Qed.

End Replay.

Lemma replay_is_bounded_witness :
  exists log' rows',
    Webhooks.replay_all Cases.refuse_all 3 Cases.stored [1; 2; 3; 4; 5]
      (Some Cases.fresh_log) []
    = (Some log', rows')
    /\ Webhooks.retry_count log' <= 3.
Proof.
  destruct (replay_is_bounded Cases.refuse_all 3 Cases.stored
              [1; 2; 3; 4; 5] Cases.fresh_log [])
    as (log' & rows' & Hrun & [_ Hmax] & _).
  - discriminate.
  - exists log', rows'. auto.
Defined.

Lemma refused_webhook_is_retried_maxRetries_times_witness :
  exists log',
    Webhooks.replay_all Cases.refuse_all 3 Cases.stored [1; 2; 3; 4; 5]
      (Some Cases.fresh_log) []
    = (Some log', [])
    /\ Webhooks.retry_count log' = 3.
Proof.
  destruct (refused_webhook_is_retried_maxRetries_times Cases.refuse_all 3
              Cases.stored [1; 2; 3; 4; 5] Cases.fresh_log [])
    as (log' & Hrun & Hcount & _); try reflexivity.
  - discriminate.
  - exists log'. split; [exact Hrun | rewrite Hcount; reflexivity].
Defined.

(* ================================================================== *)
(** * Leads created by the webhooks, and the CRM status names          *)
(* ================================================================== *)

Section WebhookLeads.

Import Webhooks.

Variable valid : Lead.t -> bool.

(** Without a distance the proximity points are lost. *)
Lemma score_without_distance (l : Lead.t) :
  Lead.distance_from_base l = Js.undefined -> Lead.calculateScore l <= 80.
Proof.
  intros Hd. unfold Lead.calculateScore, Js.min. rewrite Hd.
  unfold Js.le. cbn [Js.ToNumber].
  pose proof (service_points_bounds (Lead.service_type l)).
  split_tests; lia.
Qed.

Lemma score_without_distance_and_passengers (l : Lead.t) :
  Lead.distance_from_base l = Js.undefined ->
  Lead.passenger_count l = Js.undefined ->
  Lead.calculateScore l <= 65.
Proof.
  intros Hd Hp. unfold Lead.calculateScore, Js.min. rewrite Hd, Hp.
  unfold Js.le, Js.ge. cbn [Js.ToNumber].
  pose proof (service_points_bounds (Lead.service_type l)).
  split_tests; lia.
Qed.

(** X18.  A lead the form webhook creates never scores above 80: the
    handler passes no distance, so the hook gives no proximity points.
    The score stored is the score the hook computes from the values the
    handler passes, and the priority stored is the level of that
    score. *)
Theorem form_lead_scores_at_most_80 :
  forall (now : Z) (req : body) (rows rows' : list Lead.t) (lead : Lead.t),
    Lead_create valid now (leadData req) rows = inr (lead, rows') ->
    Lead.lead_score lead = Lead.calculateScore (leadData req)
    /\ Lead.lead_score lead <= 80
    /\ Lead.priority_level lead = Lead.priority_of_score (Lead.lead_score lead).
Proof.
  intros now req rows rows' lead Hc.
  apply Lead_create_appends in Hc as (_ & -> & _).
  split; [reflexivity |]. split; [| reflexivity].
  change (Lead.lead_score _) with (Lead.calculateScore (leadData req)).
  now apply score_without_distance.
Qed.

(** X19.  A lead the replay of a form webhook creates never scores above
    65 and never gets priority 5: [extractLeadData] copies neither the
    passenger count nor a distance. *)
Theorem replayed_lead_scores_at_most_65 :
  forall (now : Z) (p : payload) (rows rows' : list Lead.t) (lead : Lead.t),
    Lead_create valid now (extractLeadData p) rows = inr (lead, rows') ->
    Lead.lead_score lead <= 65
    /\ Lead.priority_level lead <= 4
    /\ Lead.passenger_count lead = Js.undefined.
Proof.
  intros now p rows rows' lead Hc.
  apply Lead_create_appends in Hc as (_ & -> & _).
  assert (Hs : Lead.calculateScore (extractLeadData p) <= 65)
    by now apply score_without_distance_and_passengers.
  split; [exact Hs |]. split; [| reflexivity].
  change (Lead.priority_level _)
    with (Lead.priority_of_score (Lead.calculateScore (extractLeadData p))).
  unfold Lead.priority_of_score.
  repeat match goal with
         | |- context [?x <=? ?y] => destruct (Z.leb_spec x y)
         end; lia.
Qed.

End WebhookLeads.

Lemma form_lead_scores_at_most_80_witness :
  exists lead rows',
    Webhooks.Lead_create Sample.validators Sample.friday_9h
      (Webhooks.leadData Sample.submission) [] = inr (lead, rows')
    /\ Lead.lead_score lead <= 80.
Proof.
  eexists _, _. split; [reflexivity |].
  refine (proj1 (proj2 (form_lead_scores_at_most_80 Sample.validators
                          Sample.friday_9h Sample.submission [] _ _ _))).
  reflexivity.
Defined.

Lemma replayed_lead_scores_at_most_65_witness :
  exists lead rows',
    Webhooks.Lead_create Sample.validators Sample.friday_9h
      (Webhooks.extractLeadData Cases.stored) [] = inr (lead, rows')
    /\ Lead.lead_score lead <= 65.
Proof.
  eexists _, _. split; [reflexivity |].
  refine (proj1 (replayed_lead_scores_at_most_65 Sample.validators
                   Sample.friday_9h Cases.stored [] _ _ _)).
  reflexivity.
Defined.

Section CrmStatus.

Import Webhooks.

Lemma set_own_status (l : Lead.t) : Lead.set_status (Lead.status l) l = l.
Proof. now destruct l. Qed.

Lemma Status_eqb_same (s : Lead.Status) : Lead.Status_eqb s s = true.
Proof. now destruct s. Qed.

Lemma scoring_unchanged_by_status (s : Lead.Status) (l : Lead.t) :
  Lead.scoring_changed l (Lead.set_status s l) = false.
Proof.
  unfold Lead.scoring_changed. cbn.
  now rewrite !num_eqb_same, String.eqb_refl.
Qed.

(** X20.  The status names sent to the CRM come back as the statuses
    they were made from: a [lead_updated] event carrying the CRM name of
    status [s] sets the status of the lead to [s] and leaves its score and
    its priority alone; when [s] is the status the lead has, the lead is
    not changed at all. *)
Theorem crm_status_round_trip :
  forall (now : Z) (s : Lead.Status) (lead : Lead.t),
    status_of (mapLeadStatusToZoho s) statusMap = Some s
    /\ let lead' :=
         crm_lead_updated now (Some (mapLeadStatusToZoho s)) None lead in
       Lead.status lead' = s
       /\ Lead.lead_score lead' = Lead.lead_score lead
       /\ Lead.priority_level lead' = Lead.priority_level lead
       /\ (s = Lead.status lead -> lead' = lead).
Proof.
  intros now s lead. split; [now destruct s |].
  assert (Hupd : crm_lead_updated now (Some (mapLeadStatusToZoho s)) None lead
                 = Lead.beforeUpdate now lead (Lead.set_status s lead)).
  { unfold crm_lead_updated. now destruct s. }
  cbv zeta. rewrite Hupd. unfold Lead.beforeUpdate.
  rewrite scoring_unchanged_by_status.
  repeat split.
  - match goal with |- context [if ?b then _ else _] => destruct b end;
      reflexivity.
  - match goal with |- context [if ?b then _ else _] => destruct b end;
      reflexivity.
  - match goal with |- context [if ?b then _ else _] => destruct b end;
      reflexivity.
  - intros ->. rewrite set_own_status, Status_eqb_same. reflexivity.
Qed.

(** X21.  A [lead_updated] event never clears a status: with a status
    name the map does not know, the lead keeps the status it has. *)
Theorem unknown_crm_status_keeps_status :
  forall (now : Z) (name : option string) (revenue : option Q)
         (lead : Lead.t),
    status_of (Js.key name) statusMap = None ->
    Lead.status (crm_lead_updated now name revenue lead) = Lead.status lead.
Proof.
  intros now name revenue lead Hnone. unfold crm_lead_updated.
  rewrite Hnone.
  destruct (Js.truthy name), revenue as [r |];
    try destruct (Qeq_bool r 0); cbn [app];
    try reflexivity;
    unfold Lead.update, Lead.beforeUpdate;
    split_tests; reflexivity.
Qed.

End CrmStatus.

Lemma crm_status_round_trip_witness :
  Webhooks.crm_lead_updated Sample.friday_9h
    (Some (Webhooks.mapLeadStatusToZoho Lead.new)) None Sample.acme
  = Sample.acme.
Proof.
  apply (proj2 (crm_status_round_trip Sample.friday_9h Lead.new Sample.acme)).
  reflexivity.
Defined.

Lemma unknown_crm_status_keeps_status_witness :
  Lead.status
    (Webhooks.crm_lead_updated Sample.friday_9h (Some "Junk Lead")
       (Some 2500%Q) Sample.acme) = Lead.new.
Proof.
  apply (unknown_crm_status_keeps_status Sample.friday_9h (Some "Junk Lead")
           (Some 2500%Q) Sample.acme).
  reflexivity.
Defined.

(* ================================================================== *)
(** * Webhook authentication                                           *)
(* ================================================================== *)

Section Signatures.

Import Auth.

Variable hmac : string -> string -> string.

Lemma substring_all (s : string) (m : nat) :
  (String.length s <= m)%nat -> substring 0 m s = s.
Proof.
  revert m. induction s as [| c s IH]; intros m Hm.
  - now destruct m.
  - destruct m as [| m]; cbn in Hm |- *; [lia |].
    rewrite IH by lia. reflexivity.
Qed.

(** Taking the prefix off a signature that starts with it. *)
Lemma remove_sha256_prefix (x : string) :
  Js.remove_first_string "sha256=" ("sha256=" ++ x)%string = x.
Proof.
  destruct x as [| c x]; [reflexivity |].
  cbn. rewrite substring_all by lia. reflexivity.
Qed.

(** X22.  Outside development and with a secret configured, a request
    that is let through carries both headers, a timestamp that is not
    stale and, once the first [sha256=] is taken out, the HMAC of the
    timestamp followed by the body. *)
Theorem accepted_webhook_carries_the_hmac :
  forall (secret : string) (now : Z) (h : headers) (body : string),
    Js.truthy (Some secret) = true ->
    validateWebhookSignature hmac false (Some secret) now h body = next ->
    exists sig ts,
      or_header (x_webhook_signature h) (signature h) = Some sig
      /\ or_header (x_timestamp h) (timestamp h) = Some ts
      /\ stale (now / 1000) (Js.parseInt ts) = false
      /\ Js.remove_first_string "sha256=" sig = hmac secret (ts ++ body)%string.
Proof.
  intros secret now h body Hsecret. unfold validateWebhookSignature.
  destruct (or_header (x_webhook_signature h) (signature h)) as [sig |];
    [| discriminate].
  destruct (or_header (x_timestamp h) (timestamp h)) as [ts |];
    [| discriminate].
  destruct (stale (now / 1000) (Js.parseInt ts)) eqn:Hfresh; [discriminate |].
  rewrite Hsecret. cbn [negb Js.key].
  destruct (negb _); [discriminate |].
  destruct (String.eqb_spec (hmac secret (ts ++ body)%string)
              (Js.remove_first_string "sha256=" sig)) as [Heq |];
    [| discriminate].
  intros _. exists sig, ts. repeat split; auto.
Qed.

(** X23.  A timestamp more than 300 seconds away from the clock, before
    or after, is rejected whatever the signature and the secret are. *)
Theorem stale_timestamp_is_rejected :
  forall (secret : option string) (now t : Z) (sig body : string),
    Js.truthy (Some sig) = true ->
    300 < Z.abs (now / 1000 - t) ->
    validateWebhookSignature hmac false secret now
      (mkHeaders (Some sig) None (Some (Js.toString t)) None) body
    = rejected "WEBHOOK_TIMESTAMP_INVALID".
Proof.
  intros secret now t sig body Hsig Hfar. unfold validateWebhookSignature.
  cbn [x_webhook_signature signature x_timestamp timestamp].
  unfold or_header. rewrite Hsig.
  assert (Hts : Js.truthy (Some (Js.toString t)) = true).
  { destruct (Js.toString t) eqn:Hs; [| reflexivity].
    pose proof (parseInt_toString t) as Hp. rewrite Hs in Hp.
    discriminate Hp. }
  rewrite Hts, parseInt_toString. unfold stale.
  replace (Qle_bool _ 300) with false; [reflexivity |].
  symmetry. apply not_true_iff_false. intros Hle.
  apply Qle_bool_iff in Hle.
  assert (Heq : (inject_Z (now / 1000) - inject_Z t == inject_Z (now / 1000 - t))%Q).
  { unfold Qminus. rewrite <- inject_Z_opp, <- inject_Z_plus. reflexivity. }
  rewrite Heq in Hle.
  unfold Qabs, inject_Z, Qle in Hle. cbn in Hle. lia.
Qed.

(** X24.  A timestamp that is not a number is never stale: a request
    signed over such a timestamp is let through at any time. *)
Theorem non_numeric_timestamp_is_never_stale :
  forall (secret : string) (now : Z) (ts body : string),
    Js.truthy (Some secret) = true ->
    Js.truthy (Some ts) = true ->
    Js.parseInt ts = None ->
    validateWebhookSignature hmac false (Some secret) now
      (mkHeaders (Some ("sha256=" ++ hmac secret (ts ++ body))%string) None
         (Some ts) None) body
    = next.
Proof.
  intros secret now ts body Hsecret Hts Hnan. unfold validateWebhookSignature.
  cbn [x_webhook_signature signature x_timestamp timestamp].
  unfold or_header. rewrite Hts, Hsecret, Hnan.
  assert (Hsig : forall x, Js.truthy (Some ("sha256=" ++ x)%string) = true)
    by reflexivity.
  rewrite Hsig. cbn [stale negb Js.key].
  rewrite remove_sha256_prefix, Nat.eqb_refl, String.eqb_refl. reflexivity.
Qed.

End Signatures.

Lemma accepted_webhook_carries_the_hmac_witness :
  Js.remove_first_string "sha256=" "sha256=k1700211600{}" = "k1700211600{}".
Proof.
  destruct (accepted_webhook_carries_the_hmac Cases.toy_hmac "k"
              1700211600000 Cases.signed_headers "{}" eq_refl eq_refl)
    as (sig & ts & Hsig & Hts & _ & Hmac).
  injection Hsig as <-. injection Hts as <-. exact Hmac.
Defined.

Lemma stale_timestamp_is_rejected_witness :
  Auth.validateWebhookSignature Cases.toy_hmac false (Some "k") 1700211600000
    (Auth.mkHeaders (Some "sha256=k1700211000{}") None
       (Some (Js.toString 1700211000)) None) "{}"
  = Auth.rejected "WEBHOOK_TIMESTAMP_INVALID".
Proof.
  apply (stale_timestamp_is_rejected Cases.toy_hmac (Some "k") 1700211600000
           1700211000 "sha256=k1700211000{}" "{}").
  - reflexivity.
  - vm_compute. reflexivity.
Defined.

Lemma non_numeric_timestamp_is_never_stale_witness :
  Auth.validateWebhookSignature Cases.toy_hmac false (Some "k") 0
    (Auth.mkHeaders (Some "sha256=kyesterday{}") None (Some "yesterday")
       None) "{}"
  = Auth.next.
Proof.
  apply (non_numeric_timestamp_is_never_stale Cases.toy_hmac "k" 0
           "yesterday" "{}"); reflexivity.
Defined.

(* ================================================================== *)
(** * Account lock                                                     *)
(* ================================================================== *)

Section AccountLock.

Import User.

Lemma fail_all_attempts (times : list Z) (u : t) :
  failed_login_attempts (fail_all times u)
  = failed_login_attempts u + Z.of_nat (List.length times).
Proof.
  unfold fail_all. revert u.
  induction times as [| now times IH]; intros u; cbn [fold_left List.length].
  - lia.
  - rewrite IH. cbn [recordFailedLogin failed_login_attempts]. lia.
Qed.

Lemma fail_all_open (times : list Z) (u : t) :
  locked_until u = None ->
  failed_login_attempts u + Z.of_nat (List.length times) < 5 ->
  locked_until (fail_all times u) = None.
Proof.
  unfold fail_all. revert u.
  induction times as [| now times IH]; intros u Hopen Hfew;
    cbn [fold_left List.length] in *; [exact Hopen |].
  apply IH.
  - cbn [recordFailedLogin locked_until].
    destruct (Z.leb_spec 5 (failed_login_attempts u + 1)); [lia | exact Hopen].
  - cbn [recordFailedLogin failed_login_attempts]. lia.
Qed.

Lemma fail_all_last (times : list Z) (now : Z) (u : t) :
  fail_all (times ++ [now]) u = recordFailedLogin now (fail_all times u).
Proof. unfold fail_all. now rewrite fold_left_app. Qed.

(** X25.  Failed logins on an account that starts with a clean record:
    the first four leave it open; from the fifth on, every failure locks
    it for the 30 minutes that follow that failure, so that once a lock
    has run out a single failure locks the account again. *)
Theorem repeated_failures_lock_the_account :
  forall (times : list Z) (now : Z) (u : t),
    failed_login_attempts u = 0 -> locked_until u = None ->
    let n := Z.of_nat (List.length times) + 1 in
    let u' := fail_all (times ++ [now]) u in
    failed_login_attempts u' = n
    /\ (n < 5 -> forall t, isLocked t u' = false)
    /\ (5 <= n -> forall t, isLocked t u' = (t <? now + 30 * 60 * 1000)).
Proof.
  intros times now u H0 Hopen n u'. subst n u'.
  rewrite fail_all_last.
  pose proof (fail_all_attempts times u) as Hn. rewrite H0 in Hn.
  unfold isLocked. cbn [recordFailedLogin failed_login_attempts locked_until].
  rewrite Hn. cbn [Z.add].
  split; [lia |]. split; intros Hcount t.
  - destruct (Z.leb_spec 5 (Z.of_nat (List.length times) + 1)); [lia |].
    rewrite fail_all_open; [reflexivity | exact Hopen | lia].
  - destruct (Z.leb_spec 5 (Z.of_nat (List.length times) + 1)); [| lia].
    reflexivity.
Qed.

End AccountLock.

Lemma repeated_failures_lock_the_account_witness :
  User.isLocked 1000
    (User.fail_all ([10; 20; 30; 40] ++ [50])
       (User.unlock Cases.dispatcher)) = true.
Proof.
  rewrite (proj2 (proj2 (repeated_failures_lock_the_account [10; 20; 30; 40]
                           50 (User.unlock Cases.dispatcher)
                           eq_refl eq_refl))).
  - reflexivity.
  - cbn. lia.
Defined.

(* ================================================================== *)
(** * High-value lead alerts                                           *)
(* ================================================================== *)

Section HighValueAlerts.

Import HighValueAlert.

Variable isUrl : string -> bool.
Hypothesis isUrl_needs_host : forall path, isUrl (String "/" path) = false.

(** X26.  A high-value alert is never delivered: the notification of
    the alert carries the path [/leads/<id>] as [action_url] and is
    refused, so for a lead that exists the job throws before any email,
    Slack message or text message is tried and stores no notification,
    whoever the recipients are and whichever deliveries would go
    through. *)
Theorem high_value_alert_is_never_delivered :
  forall (now leadId : Z) (emailOk smsOk : User.t -> bool) (slackOk : bool)
         (leads : list Lead.t) (users : list User.t)
         (rows : list Notification.t),
    processHighValueAlert isUrl now leadId emailOk slackOk smsOk leads users
      rows
    = (match find (fun l => Lead.id l =? leadId) leads with
       | Some _ => create_failed
       | None => lead_not_found
       end, rows).
Proof.
  intros now leadId emailOk smsOk slackOk leads users rows.
  unfold processHighValueAlert.
  destruct (find _ leads) as [lead |]; [| reflexivity].
  unfold createHighValueLeadAlert, Notification.create, Notification.validate.
  cbn [Notification.action_url Notification.action_url_of append].
  now rewrite isUrl_needs_host, andb_false_r.
Qed.

End HighValueAlerts.

Lemma high_value_alert_is_never_delivered_witness :
  HighValueAlert.processHighValueAlert Sample.has_host Sample.friday_9h 1
    (fun _ => true) true (fun _ => true)
    [Sample.acme] [Cases.dispatcher] []
  = (HighValueAlert.create_failed, []).
Proof.
  exact (high_value_alert_is_never_delivered Sample.has_host
           (fun path => eq_refl) Sample.friday_9h 1
           (fun _ => true) (fun _ => true) true
           [Sample.acme] [Cases.dispatcher] []).
Defined.

(* ================================================================== *)
(** * Phone numbers                                                    *)
(* ================================================================== *)

Section PhoneNumbers.

Import SmsService.

Lemma cleaned_idem (s : string) : cleaned (cleaned s) = cleaned s.
Proof.
  induction s as [| c s IH]; [reflexivity |].
  cbn [cleaned]. destruct (Js.is_digit c) eqn:Hc; [| exact IH].
  cbn [cleaned]. now rewrite Hc, IH.
Qed.

Lemma cleaned_shorter (s : string) :
  (String.length (cleaned s) <= String.length s)%nat.
Proof.
  induction s as [| c s IH]; cbn [cleaned String.length]; [lia |].
  destruct (Js.is_digit c); cbn [String.length]; lia.
Qed.

Lemma substring_short (n m : nat) (s : string) :
  (String.length (substring n m s) <= m)%nat.
Proof.
  revert n m. induction s as [| c s IH]; intros n m.
  - destruct n, m; cbn; lia.
  - destruct n as [| n].
    + destruct m as [| m]; cbn [substring String.length]; [lia |].
      specialize (IH 0%nat m). lia.
    + cbn [substring]. apply IH.
Qed.

Lemma cleaned_plus_one (c : string) :
  cleaned ("+1" ++ c) = String "1" (cleaned c).
Proof. reflexivity. Qed.

Lemma cleaned_plus (c : string) : cleaned ("+" ++ c) = cleaned c.
Proof. reflexivity. Qed.

Lemma formatPhoneNumber_cases (p : string) :
  (String.length (cleaned p) = 10%nat
   /\ formatPhoneNumber p = ("+1" ++ cleaned p)%string)
  \/ ((String.length (cleaned p) =? 10)%nat = false
      /\ (String.length (cleaned p) =? 11)%nat
         && Js.startsWith "1" (cleaned p) = true
      /\ formatPhoneNumber p = ("+" ++ cleaned p)%string)
  \/ ((String.length (cleaned p) =? 10)%nat = false
      /\ (String.length (cleaned p) =? 11)%nat
         && Js.startsWith "1" (cleaned p) = false
      /\ formatPhoneNumber p = p).
Proof.
  unfold formatPhoneNumber.
  destruct (String.length (cleaned p) =? 10)%nat eqn:H10.
  - left. apply Nat.eqb_eq in H10. auto.
  - destruct ((String.length (cleaned p) =? 11)%nat
              && Js.startsWith "1" (cleaned p)); auto.
Qed.

(** X27.  [formatPhoneNumber] is idempotent, and a number is valid after
    formatting exactly when it was before. *)
Theorem formatPhoneNumber_idempotent :
  forall phoneNumber : string,
    formatPhoneNumber (formatPhoneNumber phoneNumber)
    = formatPhoneNumber phoneNumber
    /\ isValidPhoneNumber (formatPhoneNumber phoneNumber)
       = isValidPhoneNumber phoneNumber.
Proof.
  intros p. unfold isValidPhoneNumber.
  destruct (formatPhoneNumber_cases p)
    as [[H10 ->] | [(H10 & H11 & ->) | (H10 & H11 & ->)]].
  - unfold formatPhoneNumber.
    rewrite cleaned_plus_one, cleaned_idem. cbn [String.length].
    rewrite H10. split; reflexivity.
  - unfold formatPhoneNumber.
    rewrite cleaned_plus, cleaned_idem, H10, H11. split; reflexivity.
  - unfold formatPhoneNumber. rewrite H10, H11. split; reflexivity.
Qed.

(** X28.  A masked number shows at most four digits of the number, and
    the mask of a number is the mask of the number as formatted. *)
Theorem masked_number_shows_four_digits :
  forall phoneNumber : string,
    (String.length (cleaned (maskPhoneNumber phoneNumber)) <= 4)%nat
    /\ maskPhoneNumber (formatPhoneNumber phoneNumber)
       = maskPhoneNumber phoneNumber.
Proof.
  intros p. split.
  - unfold maskPhoneNumber.
    destruct (10 <=? String.length (cleaned p))%nat.
    + change (cleaned ("***-***-" ++ slice_last 4 (cleaned p)))
        with (cleaned (slice_last 4 (cleaned p))).
      pose proof (cleaned_shorter (slice_last 4 (cleaned p))).
      pose proof (substring_short (String.length (cleaned p) - 4) 4
                    (cleaned p)).
      unfold slice_last in *. lia.
    + apply Nat.leb_le. reflexivity.
  - destruct (formatPhoneNumber_cases p)
      as [[H10 ->] | [(H10 & H11 & ->) | (H10 & H11 & ->)]].
    + unfold maskPhoneNumber.
      rewrite cleaned_plus_one, cleaned_idem. cbn [String.length].
      rewrite H10. cbn [Nat.leb]. unfold slice_last.
      cbn [String.length]. rewrite H10. reflexivity.
    + unfold maskPhoneNumber. now rewrite cleaned_plus, cleaned_idem.
    + reflexivity.
Qed.

End PhoneNumbers.

(* ================================================================== *)
(** * The reschedule request of a follow-up                            *)
(* ================================================================== *)

Section Reschedule.

Import FollowUp.

Lemma toString_no_colon (n : Z) : Js.includes ":" (Js.toString n) = false.
Proof.
  destruct n as [| p | p].
  - reflexivity.
  - now apply toString_no_sign.
  - unfold Js.toString. cbn. unfold NilZero.string_of_uint.
    pose proof (Unsigned.to_uint_nonnil p).
    destruct (Pos.to_uint p); [congruence | ..]; now apply uint_no_sign.
Qed.

(** X29.  The delay [processFollowUp] writes into the error message is
    the delay its [catch] reads back: the whole seconds of the
    milliseconds to the next business hour. *)
Theorem reschedule_round_trip :
  forall delay : Z,
    caught (reschedule delay) = Some (Some (inject_Z (delay / 1000))).
Proof.
  intros delay. unfold caught, reschedule.
  change (Js.startsWith "RESCHEDULE:"
            ("RESCHEDULE:" ++ Js.toString (delay / 1000))) with true.
  cbv iota.
  change ("RESCHEDULE:" ++ Js.toString (delay / 1000))%string
    with ("RESCHEDULE" ++ String ":" (Js.toString (delay / 1000)))%string.
  rewrite split_app by reflexivity.
  rewrite split_none by apply toString_no_colon.
  cbn [nth_error]. now rewrite parseInt_toString.
Qed.

End Reschedule.
